(** * glox: a tree-walking interpreter for Lox, written in Go

    A shallow embedding of [glox/internal/lox/interpreter.go],
    [glox/internal/lox/stmt.go], the two versions of the error reporter
    and the command-line entry point, followed by the properties of the
    design document that concern them.

    Conventions of the embedding.
    - A Go [float64] is a primitive binary64 float; [+], [-], [==], [<] on
      it are the IEEE-754 operations of [PrimFloat].
    - A Go pointer is an index into a store of objects of its type; the
      stores are part of the machine state, so that aliasing (closures,
      instances reachable from several variables) is kept.
    - A Go method returning [(interface{}, error)] is a state-passing
      function returning a [result]; a Go panic is the result [Panic].
    - The interpreter can loop, so [eval] and [exec] take a fuel argument
      and answer [Timeout] when it runs out. *)

From Stdlib Require Import PrimFloat SpecFloat FloatOps Uint63 ZArith String Ascii
  DecimalString.
From stdpp Require Import base option list gmap strings.

Set Warnings "-register-all".
Local Open Scope string_scope.

(** ** Tokens and values *)

(** Modelled from the spec: the token kinds (the file declaring them is
    not among the sources; interpreter.go uses the names below). *)
Inductive TokenType :=
| LEFT_PAREN | RIGHT_PAREN | LEFT_BRACE | RIGHT_BRACE
| COMMA | DOT | MINUS | PLUS | SEMICOLON | SLASH | STAR
| BANG | BANG_EQUAL | EQUAL | EQUAL_EQUAL
| GREATER | GREATER_EQUAL | LESS | LESS_EQUAL
| IDENTIFIER | STRING | NUMBER
| AND | CLASS | ELSE | FALSE | FUN | FOR | IF | NIL | OR
| PRINT | RETURN | SUPER | THIS | TRUE | VAR | WHILE
| EOF.

(** A pointer: the index of an object in the store of its type. *)
Abbreviation ptr := nat (only parsing).

(** What an [interface{}] holds at run time: nil, a bool, a float64, a
    string, or a pointer to the native clock, to a function, to a class
    or to an instance. *)
Inductive Value :=
| VNil
| VBool (b : bool)
| VNumber (x : float)
| VString (s : string)
| VClock
| VFunction (p : ptr)
| VClass (p : ptr)
| VInstance (p : ptr).

(** Modelled from the spec: [Token] is
    [{ kind, lexeme, literal, line }]. *)
Record Token := mkToken {
  Type_ : TokenType;
  Lexeme : string;
  Literal : Value;
  Line : nat
}.

(** ** Syntax trees *)

(** Modelled from the spec: the expression nodes (the file declaring them
    is not among the sources); the field names are the ones interpreter.go
    reads.  The interpreter keys [locals] on the identity of a node, so the
    four variable-referencing nodes carry an identifier. *)
Inductive Expr :=
| AssignExpr (id : nat) (Name : Token) (Val : Expr)
| BinaryExpr (Lhs : Expr) (Op : Token) (Rhs : Expr)
| CallExpr (Callee : Expr) (Paren : Token) (Args : list Expr)
| GetExpr (Obj : Expr) (Name : Token)
| GroupExpr (Inner : Expr)
| LiteralExpr (Val : Value)
| LogicalExpr (Lhs : Expr) (Op : Token) (Rhs : Expr)
| SetExpr (Obj : Expr) (Name : Token) (Val : Expr)
| SuperExpr (id : nat) (Keyword : Token) (Method : Token)
| ThisExpr (id : nat) (Keyword : Token)
| UnaryExpr (Op : Token) (Inner : Expr)
| VarExpr (id : nat) (Name : Token).

(** stmt.go.  A nil [Expr], [Stmt] or [*VarExpr] field is [None]. *)
Inductive Stmt :=
| BlockStmt (Stmts : list Stmt)
| ClassStmt (Name : Token) (Super : option (nat * Token))
            (Methods : list FunctionStmt)
| ExprStmt (E : Expr)
| FunctionStmtNode (decl : FunctionStmt)
| IfStmt (Cond : Expr) (ThenBranch : Stmt) (ElseBranch : option Stmt)
| PrintStmt (E : Expr)
| ReturnStmt (Keyword : Token) (Val : option Expr)
| VarStmt (Name : Token) (Init : option Expr)
| WhileStmt (Cond : Expr) (Body : Stmt)
with FunctionStmt :=
| NewFunctionStmt (Name : Token) (Params : list Token) (Body : list Stmt).

Definition fnName (d : FunctionStmt) : Token :=
  match d with NewFunctionStmt n _ _ => n end.
Definition fnParams (d : FunctionStmt) : list Token :=
  match d with NewFunctionStmt _ ps _ => ps end.
Definition fnBody (d : FunctionStmt) : list Stmt :=
  match d with NewFunctionStmt _ _ b => b end.

(** ** Run-time objects *)

(** Modelled from the spec: [Environment] is
    [{ values: mapping name→Value, enclosing: Environment? }]. *)
Record environment := mkEnvironment {
  values : gmap string Value;
  enclosing : option ptr
}.

(** Modelled from the spec: a user function captures its declaring
    environment, its declaration and the is-initializer flag. *)
Record function := mkFunction {
  declaration : FunctionStmt;
  closure : ptr;
  isInitializer : bool
}.

(** Modelled from the spec: [Class] is
    [{ name, superclass?, methods: mapping name→function }]. *)
Record class := mkClass {
  name : string;
  superclass : option ptr;
  methods : gmap string ptr
}.

(** Modelled from the spec: an instance is
    [{ class, fields: mapping name→Value }]. *)
Record instance := mkInstance {
  klass : ptr;
  fields : gmap string Value
}.

(** The two kinds of [error] the interpreter returns: a runtime error and
    the signal that carries the value of a [return] statement. *)
Inductive error :=
| runtimeError (token : Token) (message : string)
| callReturn (value : Value).

Inductive result (A : Type) :=
| Ok (a : A)
| Err (e : error)
| Panic (msg : string)
| Timeout.
Arguments Ok {A} a.
Arguments Err {A} e.
Arguments Panic {A} msg.
Arguments Timeout {A}.

(** ** The interpreter and the memory it points into *)

Module Interpreter.
(** The fields of the Go struct ([reporter] apart, which [Interpret]
    alone uses), then the stores its pointers index and the contents of
    the [output] writer. *)
Local Abbreviation frame := environment (only parsing).
Record t := mk {
  globals : ptr;
  environment : ptr;
  locals : gmap nat Z;
  isREPL : bool;
  output : string;
  envs : list frame;
  functions : list function;
  classes : list class;
  instances : list instance;
  clockCalls : nat
}.

Definition set_environment (e : ptr) (s : t) : t :=
  mk (globals s) e (locals s) (isREPL s) (output s)
     (envs s) (functions s) (classes s) (instances s) (clockCalls s).
Definition set_output (o : string) (s : t) : t :=
  mk (globals s) (environment s) (locals s) (isREPL s) o
     (envs s) (functions s) (classes s) (instances s) (clockCalls s).
Definition set_envs (l : list frame) (s : t) : t :=
  mk (globals s) (environment s) (locals s) (isREPL s) (output s)
     l (functions s) (classes s) (instances s) (clockCalls s).
Definition set_functions (l : list function) (s : t) : t :=
  mk (globals s) (environment s) (locals s) (isREPL s) (output s)
     (envs s) l (classes s) (instances s) (clockCalls s).
Definition set_classes (l : list class) (s : t) : t :=
  mk (globals s) (environment s) (locals s) (isREPL s) (output s)
     (envs s) (functions s) l (instances s) (clockCalls s).
Definition set_instances (l : list instance) (s : t) : t :=
  mk (globals s) (environment s) (locals s) (isREPL s) (output s)
     (envs s) (functions s) (classes s) l (clockCalls s).
Definition set_clockCalls (n : nat) (s : t) : t :=
  mk (globals s) (environment s) (locals s) (isREPL s) (output s)
     (envs s) (functions s) (classes s) (instances s) n.
End Interpreter.

(** ** A state and error monad *)

Definition M (A : Type) : Type := Interpreter.t -> result A * Interpreter.t.

Definition ret {A} (a : A) : M A := fun s => (Ok a, s).
Definition fail {A} (e : error) : M A := fun s => (Err e, s).
Definition panic {A} (msg : string) : M A := fun s => (Panic msg, s).
Definition timeout {A} : M A := fun s => (Timeout, s).

Definition bind {A B} (m : M A) (k : A -> M B) : M B :=
  fun s =>
    match m s with
    | (Ok a, s') => k a s'
    | (Err e, s') => (Err e, s')
    | (Panic msg, s') => (Panic msg, s')
    | (Timeout, s') => (Timeout, s')
    end.

Notation "'let*' x ':=' m 'in' k" := (bind m (fun x => k))
  (at level 10, x pattern, m at level 100, k at level 200).
Notation "m ';;' k" := (bind m (fun _ => k))
  (at level 100, k at level 200, right associativity).

Definition gets {A} (f : Interpreter.t -> A) : M A := fun s => (Ok (f s), s).
Definition modify (f : Interpreter.t -> Interpreter.t) : M unit :=
  fun s => (Ok tt, f s).

(** Following a pointer: a nil or dangling one panics. *)
Definition deref {A} (f : Interpreter.t -> option A) : M A :=
  fun s =>
    match f s with
    | Some a => (Ok a, s)
    | None => (Panic "invalid memory address or nil pointer dereference", s)
    end.

Definition newRuntimeError (token : Token) (message : string) : error :=
  runtimeError token message.
Definition newCallReturn (value : Value) : error := callReturn value.

(** ** Values: truthiness and comparison *)

(** Modelled from the spec: [false] and [nil] are false; everything else
    (including [0] and the empty string) is true. *)
Definition truthy (v : Value) : bool :=
  match v with
  | VNil => false
  | VBool b => b
  | _ => true
  end.

(** Go's [==] on two [interface{}] operands: equal dynamic types and equal
    dynamic values.  Floats compare as IEEE-754 says, pointers by address;
    every dynamic type a Lox value can have is comparable, so the
    comparison does not panic. *)
Definition interfaceEq (a b : Value) : bool :=
  match a, b with
  | VNil, VNil => true
  | VBool x, VBool y => Bool.eqb x y
  | VNumber x, VNumber y => PrimFloat.eqb x y
  | VString x, VString y => String.eqb x y
  | VClock, VClock => true
  | VFunction p, VFunction q => Nat.eqb p q
  | VClass p, VClass q => Nat.eqb p q
  | VInstance p, VInstance q => Nat.eqb p q
  | _, _ => false
  end.

(** Go's [!=] on two [interface{}] operands: different dynamic types, or
    different dynamic values. *)
Definition interfaceNe (a b : Value) : bool :=
  match a, b with
  | VNil, VNil => false
  | VBool x, VBool y => xorb x y
  | VNumber x, VNumber y => negb (PrimFloat.eqb x y)
  | VString x, VString y => negb (String.eqb x y)
  | VClock, VClock => false
  | VFunction p, VFunction q => negb (Nat.eqb p q)
  | VClass p, VClass q => negb (Nat.eqb p q)
  | VInstance p, VInstance q => negb (Nat.eqb p q)
  | _, _ => true
  end.

(** The dynamic type of a value, as a type switch sees it. *)
Inductive DynType :=
| TNil | TBool | TFloat64 | TString | TClockPtr | TFunctionPtr | TClassPtr
| TInstancePtr.

Definition dynType (v : Value) : DynType :=
  match v with
  | VNil => TNil
  | VBool _ => TBool
  | VNumber _ => TFloat64
  | VString _ => TString
  | VClock => TClockPtr
  | VFunction _ => TFunctionPtr
  | VClass _ => TClassPtr
  | VInstance _ => TInstancePtr
  end.

Definition newline : string := String (ascii_of_nat 10) EmptyString.

(** [%d] of a non-negative int. *)
Definition itoa (n : nat) : string := NilZero.string_of_uint (Nat.to_uint n).

(** ** Environments *)

(** Modelled from the spec: a new frame with the given parent link. *)
Definition newEnvironment (parent : option ptr) : M ptr :=
  fun s =>
    (Ok (length (Interpreter.envs s)),
     Interpreter.set_envs
       (Interpreter.envs s ++ [mkEnvironment ∅ parent]) s).

Definition writeVar (env : ptr) (key : string) (v : Value) : M unit :=
  fun s =>
    match Interpreter.envs s !! env with
    | Some e =>
        (Ok tt,
         Interpreter.set_envs
           (<[env := mkEnvironment (<[key := v]> (values e)) (enclosing e)]>
              (Interpreter.envs s)) s)
    | None => (Panic "invalid memory address or nil pointer dereference", s)
    end.

(** Modelled from the spec: [define(name, v)] always succeeds
    (shadows). *)
Definition define (env : ptr) (key : string) (v : Value) : M unit :=
  writeVar env key v.

(** Modelled from the spec: [getAt]/[assignAt] skip exactly [distance]
    frames without looking at the frames they pass. *)
Fixpoint ancestor (es : list environment) (env : ptr) (distance : nat)
  : option ptr :=
  match distance with
  | O => Some env
  | S d =>
      match es !! env with
      | Some e =>
          match enclosing e with
          | Some p => ancestor es p d
          | None => None
          end
      | None => None
      end
  end.

(** Modelled from the spec: [getAt(d, n)] acts directly on the map of the
    frame [d] links up; a name the map lacks reads as nil. *)
Definition getAt (env : ptr) (distance : Z) (key : string) : M Value :=
  deref (fun s =>
    match ancestor (Interpreter.envs s) env (Z.to_nat distance) with
    | Some p =>
        match Interpreter.envs s !! p with
        | Some e => Some (default VNil (values e !! key))
        | None => None
        end
    | None => None
    end).

(** Modelled from the spec: [assignAt(d, n, v)] writes the map of the
    frame [d] links up. *)
Definition assignAt (env : ptr) (distance : Z) (key : Token) (v : Value)
  : M unit :=
  let* p := deref (fun s =>
              ancestor (Interpreter.envs s) env (Z.to_nat distance)) in
  writeVar p (Lexeme key) v.

Definition undefinedVariable (key : Token) : error :=
  newRuntimeError key ("Undefined variable '" ++ Lexeme key ++ "'.").

(** Modelled from the spec: [get(n)] walks up the chain and fails with
    "Undefined variable 'n'." when no frame has the name.  The chain has at
    most as many frames as the store; the walk is given that many steps. *)
Fixpoint lookupChain (steps : nat) (es : list environment) (env : ptr)
  (key : Token) : result Value :=
  match steps with
  | O => Timeout
  | S n =>
      match es !! env with
      | None => Panic "invalid memory address or nil pointer dereference"
      | Some e =>
          match values e !! Lexeme key with
          | Some v => Ok v
          | None =>
              match enclosing e with
              | Some p => lookupChain n es p key
              | None => Err (undefinedVariable key)
              end
          end
      end
  end.

Definition get (env : ptr) (key : Token) : M Value :=
  fun s =>
    (lookupChain (length (Interpreter.envs s)) (Interpreter.envs s) env key,
     s).

(** Modelled from the spec: [assign(n, v)] writes the nearest frame that
    has the name and fails the same way when none has. *)
Fixpoint assignChain (steps : nat) (es : list environment) (env : ptr)
  (key : Token) : result ptr :=
  match steps with
  | O => Timeout
  | S n =>
      match es !! env with
      | None => Panic "invalid memory address or nil pointer dereference"
      | Some e =>
          match values e !! Lexeme key with
          | Some _ => Ok env
          | None =>
              match enclosing e with
              | Some p => assignChain n es p key
              | None => Err (undefinedVariable key)
              end
          end
      end
  end.

Definition assign (env : ptr) (key : Token) (v : Value) : M unit :=
  let* p := (fun s =>
    (assignChain (length (Interpreter.envs s)) (Interpreter.envs s) env key,
     s)) in
  writeVar p (Lexeme key) v.

(** ** Functions, classes and instances: the parts that run no code *)

(** Modelled from the spec: [newFunction], [newClass] and [newInstance]
    allocate an object with the given fields; an instance starts without
    fields. *)
Definition newFunction (decl : FunctionStmt) (env : ptr) (isInit : bool)
  : M ptr :=
  fun s =>
    (Ok (length (Interpreter.functions s)),
     Interpreter.set_functions
       (Interpreter.functions s ++ [mkFunction decl env isInit]) s).

Definition newClass (nm : string) (super : option ptr)
  (ms : gmap string ptr) : M ptr :=
  fun s =>
    (Ok (length (Interpreter.classes s)),
     Interpreter.set_classes
       (Interpreter.classes s ++ [mkClass nm super ms]) s).

Definition newInstance (cls : ptr) : M ptr :=
  fun s =>
    (Ok (length (Interpreter.instances s)),
     Interpreter.set_instances
       (Interpreter.instances s ++ [mkInstance cls ∅]) s).

(** Modelled from the spec: a bound method is the function with [this]
    bound in an extra frame in front of its closure. *)
Definition functionBind (fn : ptr) (inst : ptr) : M ptr :=
  let* f := deref (fun s => Interpreter.functions s !! fn) in
  let* env := newEnvironment (Some (closure f)) in
  define env "this" (VInstance inst) ;;
  newFunction (declaration f) env (isInitializer f).

(** Modelled from the spec: [findMethod(n)]: own map, else the
    superclass's [findMethod]. *)
Fixpoint findMethod (steps : nat) (cs : list class) (cls : ptr)
  (key : string) : option ptr :=
  match steps with
  | O => None
  | S n =>
      match cs !! cls with
      | None => None
      | Some c =>
          match methods c !! key with
          | Some f => Some f
          | None =>
              match superclass c with
              | Some sup => findMethod n cs sup key
              | None => None
              end
          end
      end
  end.

Definition classFindMethod (s : Interpreter.t) (cls : ptr) (key : string)
  : option ptr :=
  findMethod (length (Interpreter.classes s)) (Interpreter.classes s) cls key.

(** Modelled from the spec: [Instance.set] is an unconditional write. *)
Definition instanceSet (inst : ptr) (key : Token) (v : Value) : M unit :=
  fun s =>
    match Interpreter.instances s !! inst with
    | Some i =>
        (Ok tt,
         Interpreter.set_instances
           (<[inst := mkInstance (klass i) (<[Lexeme key := v]> (fields i))]>
              (Interpreter.instances s)) s)
    | None => (Panic "invalid memory address or nil pointer dereference", s)
    end.

(** Modelled from the spec: [Instance.get(name)]: field first; else the
    class's method bound to the instance; else
    "Undefined property 'name'.". *)
Definition instanceGet (inst : ptr) (key : Token) : M Value :=
  let* i := deref (fun s => Interpreter.instances s !! inst) in
  match fields i !! Lexeme key with
  | Some v => ret v
  | None =>
      let* m := gets (fun s => classFindMethod s (klass i) (Lexeme key)) in
      match m with
      | Some fn => let* b := functionBind fn inst in ret (VFunction b)
      | None =>
          fail (newRuntimeError key
                  ("Undefined property '" ++ Lexeme key ++ "'."))
      end
  end.

(** The values that implement the [callable] interface. *)
Inductive callable :=
| CClock
| CFunction (p : ptr)
| CClass (p : ptr).

(** The type assertion [callee.(callable)]. *)
Definition asCallable (v : Value) : option callable :=
  match v with
  | VClock => Some CClock
  | VFunction p => Some (CFunction p)
  | VClass p => Some (CClass p)
  | _ => None
  end.

(** Modelled from the spec: the arity of [clock] is 0, of a function the
    number of its parameters, of a class the arity of its [init] if it has
    one and 0 otherwise. *)
Definition arity (s : Interpreter.t) (c : callable) : option nat :=
  match c with
  | CClock => Some 0
  | CFunction p =>
      match Interpreter.functions s !! p with
      | Some f => Some (length (fnParams (declaration f)))
      | None => None
      end
  | CClass p =>
      match classFindMethod s p "init" with
      | Some m =>
          match Interpreter.functions s !! m with
          | Some f => Some (length (fnParams (declaration f)))
          | None => None
          end
      | None => Some 0
      end
  end.

(** ** The visitor

    [stringify] and the wall clock behind the native [clock] live outside
    the sources; the interpreter is parametric in them.  [wallClock n] is
    the reading that the [n]-th call of [clock()] gets. *)

Section Visitor.

Variable stringify : Interpreter.t -> Value -> string.
Variable wallClock : nat -> float.

(** [fmt.Fprintln(in.output, text)]. *)
Definition Fprintln (text : string) : M unit :=
  modify (fun s =>
    Interpreter.set_output (Interpreter.output s ++ text ++ newline) s).

Definition printValue (v : Value) : M unit :=
  let* text := gets (fun s => stringify s v) in
  Fprintln text.

Definition bothNumbers (lhs rhs : Value) : option (float * float) :=
  match lhs, rhs with
  | VNumber l, VNumber r => Some (l, r)
  | _, _ => None
  end.

Definition bothStrings (lhs rhs : Value) : option (string * string) :=
  match lhs, rhs with
  | VString l, VString r => Some (l, r)
  | _, _ => None
  end.

(** The [switch expr.Op.Type] of [VisitBinaryExpr], once both operands
    have their values. *)
Definition binaryOp (Op : Token) (lhs rhs : Value) : M Value :=
  let numeric (f : float -> float -> Value) : M Value :=
    match bothNumbers lhs rhs with
    | Some (l, r) => ret (f l r)
    | None => fail (newRuntimeError Op "Operands must be numbers.")
    end in
  match Type_ Op with
  | BANG_EQUAL => ret (VBool (interfaceNe lhs rhs))
  | EQUAL_EQUAL => ret (VBool (interfaceEq lhs rhs))
  | GREATER => numeric (fun l r => VBool (PrimFloat.ltb r l))
  | GREATER_EQUAL => numeric (fun l r => VBool (PrimFloat.leb r l))
  | LESS => numeric (fun l r => VBool (PrimFloat.ltb l r))
  | LESS_EQUAL => numeric (fun l r => VBool (PrimFloat.leb l r))
  | MINUS => numeric (fun l r => VNumber (PrimFloat.sub l r))
  | PLUS =>
      match bothStrings lhs rhs with
      | Some (l, r) => ret (VString (l ++ r))
      | None =>
          match bothNumbers lhs rhs with
          | Some (l, r) => ret (VNumber (PrimFloat.add l r))
          | None =>
              fail (newRuntimeError Op
                      "Operands must be two numbers or two strings.")
          end
      end
  | SLASH => numeric (fun l r => VNumber (PrimFloat.div l r))
  | STAR => numeric (fun l r => VNumber (PrimFloat.mul l r))
  | _ => panic "Unreachable"
  end.

Section Recursion.

(** [in.eval] and [in.exec], as the visiting methods call them. *)
Variable eval : Expr -> M Value.
Variable exec : Stmt -> M unit.

(** The loop of [execBlock] and of a function body: stop at the first
    statement that returns an error. *)
Fixpoint execStmts (statements : list Stmt) : M unit :=
  match statements with
  | [] => ret tt
  | stmt :: rest => exec stmt ;; execStmts rest
  end.

(** The deferred function runs on every way out of [execBlock], a panic
    included. *)
Definition execBlock (statements : list Stmt) (env : ptr) : M unit :=
  fun s =>
    let prevEnv := Interpreter.environment s in
    let '(r, s') := execStmts statements (Interpreter.set_environment env s) in
    (r, Interpreter.set_environment prevEnv s').

Fixpoint defineParams (env : ptr) (params : list Token) (args : list Value)
  : M unit :=
  match params, args with
  | param :: params', arg :: args' =>
      define env (Lexeme param) arg ;; defineParams env params' args'
  | [], _ => ret tt
  | _ :: _, [] => panic "index out of range"
  end.

(** Modelled from the spec: invoking a user function creates a new
    environment whose parent is the closure, defines each parameter to its
    argument and executes the body as a block; a return signal delivers
    the call's value, the end of the body gives nil, and an initializer
    gives the bound instance either way. *)
Definition functionCall (fn : ptr) (args : list Value) : M Value :=
  let* f := deref (fun s => Interpreter.functions s !! fn) in
  let* env := newEnvironment (Some (closure f)) in
  defineParams env (fnParams (declaration f)) args ;;
  fun s =>
    match execBlock (fnBody (declaration f)) env s with
    | (Ok _, s') =>
        if isInitializer f then getAt (closure f) 0 "this" s'
        else (Ok VNil, s')
    | (Err (callReturn v), s') =>
        if isInitializer f then getAt (closure f) 0 "this" s'
        else (Ok v, s')
    | (Err e, s') => (Err e, s')
    | (Panic msg, s') => (Panic msg, s')
    | (Timeout, s') => (Timeout, s')
    end.

(** Modelled from the spec: invoking a class allocates an instance, binds
    [this], invokes [init] if present with the given arguments and returns
    the instance. *)
Definition classCall (cls : ptr) (args : list Value) : M Value :=
  let* inst := newInstance cls in
  let* init := gets (fun s => classFindMethod s cls "init") in
  match init with
  | Some m =>
      let* b := functionBind m inst in
      functionCall b args ;; ret (VInstance inst)
  | None => ret (VInstance inst)
  end.

(** Modelled from the spec: [clock()] returns the wall-clock seconds. *)
Definition clockCall : M Value :=
  fun s =>
    (Ok (VNumber (wallClock (Interpreter.clockCalls s))),
     Interpreter.set_clockCalls (S (Interpreter.clockCalls s)) s).

(** [call.call(in, args)]. *)
Definition call (c : callable) (args : list Value) : M Value :=
  match c with
  | CClock => clockCall
  | CFunction p => functionCall p args
  | CClass p => classCall p args
  end.

Definition lookUpVar (key : Token) (id : nat) : M Value :=
  let* steps := gets (fun s => Interpreter.locals s !! id) in
  match steps with
  | Some d =>
      let* env := gets Interpreter.environment in
      getAt env d (Lexeme key)
  | None =>
      let* g := gets Interpreter.globals in
      get g key
  end.

(** *** Statements *)

Definition VisitBlockStmt (Stmts : list Stmt) : M unit :=
  let* cur := gets Interpreter.environment in
  let* env := newEnvironment (Some cur) in
  execBlock Stmts env.

Definition VisitExprStmt (E : Expr) : M unit :=
  let* v := eval E in
  let* repl := gets Interpreter.isREPL in
  if repl then
    match E with
    | AssignExpr _ _ _ | CallExpr _ _ _ => ret tt
    | _ => printValue v
    end
  else ret tt.

(** The loop over [stmt.Methods]: a later method of the same name
    replaces an earlier one. *)
Fixpoint buildMethods (Methods : list FunctionStmt) (ms : gmap string ptr)
  : M (gmap string ptr) :=
  match Methods with
  | [] => ret ms
  | method :: rest =>
      let isInit := String.eqb (Lexeme (fnName method)) "init" in
      let* env := gets Interpreter.environment in
      let* fn := newFunction method env isInit in
      buildMethods rest (<[Lexeme (fnName method) := fn]> ms)
  end.

Definition VisitClassStmt (Name : Token) (Super : option (nat * Token))
  (Methods : list FunctionStmt) : M unit :=
  let* super :=
    match Super with
    | Some (id, superName) =>
        let* superObj := eval (VarExpr id superName) in
        match superObj with
        | VClass sup =>
            let* cur := gets Interpreter.environment in
            let* env := newEnvironment (Some cur) in
            modify (Interpreter.set_environment env) ;;
            define env "super" (VClass sup) ;;
            ret (Some sup)
        | _ =>
            fail (newRuntimeError superName "Superclass must be a class.")
        end
    | None => ret None
    end in
  let* ms := buildMethods Methods ∅ in
  let* cls := newClass (Lexeme Name) super ms in
  match super with
  | Some _ =>
      let* cur := gets Interpreter.environment in
      let* e := deref (fun s => Interpreter.envs s !! cur) in
      match enclosing e with
      | Some parent => modify (Interpreter.set_environment parent)
      | None => panic "invalid memory address or nil pointer dereference"
      end
  | None => ret tt
  end ;;
  let* cur := gets Interpreter.environment in
  define cur (Lexeme Name) (VClass cls).

Definition VisitFunctionStmt (decl : FunctionStmt) : M unit :=
  let* cur := gets Interpreter.environment in
  let* fn := newFunction decl cur false in
  define cur (Lexeme (fnName decl)) (VFunction fn).

Definition VisitIfStmt (Cond : Expr) (ThenBranch : Stmt)
  (ElseBranch : option Stmt) : M unit :=
  let* cond := eval Cond in
  if truthy cond then exec ThenBranch
  else
    match ElseBranch with
    | Some stmt => exec stmt
    | None => ret tt
    end.

Definition VisitPrintStmt (E : Expr) : M unit :=
  let* v := eval E in
  printValue v.

Definition VisitVarStmt (Name : Token) (Init : option Expr) : M unit :=
  let* initVal :=
    match Init with
    | Some e => eval e
    | None => ret VNil
    end in
  let* cur := gets Interpreter.environment in
  define cur (Lexeme Name) initVal.

Definition VisitReturnStmt (Keyword : Token) (Val : option Expr) : M unit :=
  let* val :=
    match Val with
    | Some e => eval e
    | None => ret VNil
    end in
  fail (newCallReturn val).

(** The [for] loop of [VisitWhileStmt], given a bound on its rounds. *)
Fixpoint VisitWhileStmt (rounds : nat) (Cond : Expr) (Body : Stmt)
  : M unit :=
  match rounds with
  | O => timeout
  | S n =>
      let* cond := eval Cond in
      if negb (truthy cond) then ret tt
      else exec Body ;; VisitWhileStmt n Cond Body
  end.

(** *** Expressions *)

Definition VisitAssignExpr (id : nat) (Name : Token) (Val : Expr)
  : M Value :=
  let* val := eval Val in
  let* steps := gets (fun s => Interpreter.locals s !! id) in
  match steps with
  | Some d =>
      let* cur := gets Interpreter.environment in
      assignAt cur d Name val ;;
      ret val
  | None =>
      let* g := gets Interpreter.globals in
      assign g Name val ;;
      ret val
  end.

Definition VisitBinaryExpr (Lhs : Expr) (Op : Token) (Rhs : Expr)
  : M Value :=
  let* lhs := eval Lhs in
  let* rhs := eval Rhs in
  binaryOp Op lhs rhs.

(** The loop over [expr.Args]: [args] holds the values so far. *)
Fixpoint evalArgs (Args : list Expr) (args : list Value)
  : M (list Value) :=
  match Args with
  | [] => ret args
  | arg :: rest =>
      let* argVal := eval arg in
      evalArgs rest (args ++ [argVal])
  end.

Definition VisitCallExpr (Callee : Expr) (Paren : Token)
  (Args : list Expr) : M Value :=
  let* callee := eval Callee in
  let* args := evalArgs Args [] in
  match asCallable callee with
  | None =>
      fail (newRuntimeError Paren "Can only call functions and classes.")
  | Some c =>
      let* n := deref (fun s => arity s c) in
      if negb (Nat.eqb (length args) n) then
        fail (newRuntimeError Paren
                ("Expected " ++ itoa n ++ " arguments but got "
                 ++ itoa (length args) ++ "."))
      else call c args
  end.

Definition VisitGetExpr (Obj : Expr) (Name : Token) : M Value :=
  let* obj := eval Obj in
  match obj with
  | VInstance inst => instanceGet inst Name
  | _ => fail (newRuntimeError Name "Only instances have properties.")
  end.

Definition VisitGroupExpr (Inner : Expr) : M Value := eval Inner.

Definition VisitLiteralExpr (Val : Value) : M Value := ret Val.

Definition VisitLogicalExpr (Lhs : Expr) (Op : Token) (Rhs : Expr)
  : M Value :=
  let* lhs := eval Lhs in
  match Type_ Op with
  | OR => if truthy lhs then ret lhs else eval Rhs
  | AND => if negb (truthy lhs) then ret lhs else eval Rhs
  | _ => panic "Unreachable"
  end.

Definition VisitSetExpr (Obj : Expr) (Name : Token) (Val : Expr)
  : M Value :=
  let* obj := eval Obj in
  match obj with
  | VInstance inst =>
      let* val := eval Val in
      instanceSet inst Name val ;;
      ret val
  | _ => fail (newRuntimeError Name "Only instances have fields.")
  end.

Definition VisitSuperExpr (id : nat) (Keyword Method : Token) : M Value :=
  let* steps := gets (fun s => default 0%Z (Interpreter.locals s !! id)) in
  let* cur := gets Interpreter.environment in
  let* superObj := getAt cur steps "super" in
  match superObj with
  | VClass super =>
      let* thisObj := getAt cur (steps - 1) "this" in
      match thisObj with
      | VInstance this =>
          let* m := gets (fun s => classFindMethod s super (Lexeme Method)) in
          match m with
          | Some method =>
              let* b := functionBind method this in ret (VFunction b)
          | None =>
              fail (newRuntimeError Method
                      ("Undefined property '" ++ Lexeme Method ++ "'."))
          end
      | _ => panic "interface conversion: interface {} is not *lox.instance"
      end
  | _ => panic "interface conversion: interface {} is not *lox.class"
  end.

Definition VisitThisExpr (id : nat) (Keyword : Token) : M Value :=
  lookUpVar Keyword id.

Definition VisitUnaryExpr (Op : Token) (Inner : Expr) : M Value :=
  let* exprVal := eval Inner in
  match Type_ Op with
  | BANG => ret (VBool (negb (truthy exprVal)))
  | MINUS =>
      match exprVal with
      | VNumber exprNum => ret (VNumber (PrimFloat.opp exprNum))
      | _ => fail (newRuntimeError Op "Operand must be a number.")
      end
  | _ => panic "Unreachable"
  end.

Definition VisitVarExpr (id : nat) (Name : Token) : M Value :=
  lookUpVar Name id.

End Recursion.

(** [expr.Accept(in)] and [stmt.Accept(in)]: dispatch on the node.  One
    unit of fuel is spent at every node. *)
Fixpoint eval (fuel : nat) (expr : Expr) {struct fuel} : M Value :=
  match fuel with
  | O => timeout
  | S n =>
      match expr with
      | AssignExpr id Name Val => VisitAssignExpr (eval n) id Name Val
      | BinaryExpr Lhs Op Rhs => VisitBinaryExpr (eval n) Lhs Op Rhs
      | CallExpr Callee Paren Args =>
          VisitCallExpr (eval n) (exec n) Callee Paren Args
      | GetExpr Obj Name => VisitGetExpr (eval n) Obj Name
      | GroupExpr Inner => VisitGroupExpr (eval n) Inner
      | LiteralExpr Val => VisitLiteralExpr Val
      | LogicalExpr Lhs Op Rhs => VisitLogicalExpr (eval n) Lhs Op Rhs
      | SetExpr Obj Name Val => VisitSetExpr (eval n) Obj Name Val
      | SuperExpr id Keyword Method => VisitSuperExpr id Keyword Method
      | ThisExpr id Keyword => VisitThisExpr id Keyword
      | UnaryExpr Op Inner => VisitUnaryExpr (eval n) Op Inner
      | VarExpr id Name => VisitVarExpr id Name
      end
  end
with exec (fuel : nat) (stmt : Stmt) {struct fuel} : M unit :=
  match fuel with
  | O => timeout
  | S n =>
      match stmt with
      | BlockStmt Stmts => VisitBlockStmt (exec n) Stmts
      | ClassStmt Name Super Methods =>
          VisitClassStmt (eval n) Name Super Methods
      | ExprStmt E => VisitExprStmt (eval n) E
      | FunctionStmtNode decl => VisitFunctionStmt decl
      | IfStmt Cond ThenBranch ElseBranch =>
          VisitIfStmt (eval n) (exec n) Cond ThenBranch ElseBranch
      | PrintStmt E => VisitPrintStmt (eval n) E
      | ReturnStmt Keyword Val => VisitReturnStmt (eval n) Keyword Val
      | VarStmt Name Init => VisitVarStmt (eval n) Name Init
      | WhileStmt Cond Body => VisitWhileStmt (eval n) (exec n) n Cond Body
      end
  end.

End Visitor.

(** [NewInterpreter]: one global environment, which defines [clock]. *)
Definition NewInterpreter (isREPL : bool) : Interpreter.t :=
  Interpreter.mk 0 0 ∅ isREPL ""
    [mkEnvironment (<["clock" := VClock]> ∅) None] [] [] [] 0.

(** [in.resolve(expr, steps)]: what the resolver records for a node. *)
Definition resolve (id : nat) (steps : Z) (s : Interpreter.t)
  : Interpreter.t :=
  Interpreter.mk (Interpreter.globals s) (Interpreter.environment s)
    (<[id := steps]> (Interpreter.locals s)) (Interpreter.isREPL s)
    (Interpreter.output s) (Interpreter.envs s) (Interpreter.functions s)
    (Interpreter.classes s) (Interpreter.instances s)
    (Interpreter.clockCalls s).

(** ** A stringify and a clock to run examples with

    The properties below hold for every [stringify] and every clock; the
    examples need one of each. *)

Definition formatInteger (z : Z) : string :=
  NilZero.string_of_int (Z.to_int z).

(** Modelled from the spec: integers render without [.0].  The spec does
    not fix the digits of the other numbers; they are left as a mark. *)
Definition formatNumber (x : float) : string :=
  match Prim2SF x with
  | S754_zero _ => "0"
  | S754_infinity sign => if sign then "-Inf" else "+Inf"
  | S754_nan => "NaN"
  | S754_finite sign m e =>
      let z := if sign then Z.neg m else Z.pos m in
      if (0 <=? e)%Z then formatInteger (z * 2 ^ e)
      else if (Z.pos m mod 2 ^ (- e) =? 0)%Z
           then formatInteger (z / 2 ^ (- e))
           else "<number>"
  end.

(** Modelled from the spec: nil is [nil], booleans [true]/[false], a
    string itself, a function [<fn name>], a class its name, an instance
    [name instance]. *)
Definition stringifySample (s : Interpreter.t) (v : Value) : string :=
  match v with
  | VNil => "nil"
  | VBool b => if b then "true" else "false"
  | VNumber x => formatNumber x
  | VString text => text
  | VClock => "<native fn>"
  | VFunction p =>
      match Interpreter.functions s !! p with
      | Some f => "<fn " ++ Lexeme (fnName (declaration f)) ++ ">"
      | None => "<fn>"
      end
  | VClass p =>
      match Interpreter.classes s !! p with
      | Some c => name c
      | None => ""
      end
  | VInstance p =>
      match Interpreter.instances s !! p with
      | Some i =>
          match Interpreter.classes s !! klass i with
          | Some c => name c ++ " instance"
          | None => " instance"
          end
      | None => " instance"
      end
  end.

Definition clockSample (n : nat) : float := PrimFloat.of_uint63 (Uint63.of_nat n).

(** ** The error reporter *)

(** An [error] as [Report] sees it: whether its dynamic type is the
    runtime error's, and the text [fmt.Fprintln] prints for it. *)
Inductive GoError :=
| RuntimeError (text : string)
| OtherError (text : string).

Definition errorText (err : GoError) : string :=
  match err with
  | RuntimeError text => text
  | OtherError text => text
  end.

Definition isRuntimeErr (err : GoError) : bool :=
  match err with
  | RuntimeError _ => true
  | OtherError _ => false
  end.

(** glox/internal/lox/reporter.go.  [writer] holds what has been written
    to the writer the reporter was made with. *)
Module SimpleReporter.
Record t := mk {
  writer : string;
  hadErr : bool;
  hadRuntimeErr : bool
}.

Definition NewSimpleReporter (w : string) : t := mk w false false.

Definition Report (err : GoError) (reporter : t) : t :=
  let w := writer reporter ++ errorText err ++ newline in
  if isRuntimeErr err
  then mk w (hadErr reporter) true
  else mk w true (hadRuntimeErr reporter).

Definition Reset (reporter : t) : t :=
  mk (writer reporter) false (hadRuntimeErr reporter).

Definition HadError (reporter : t) : bool := hadErr reporter.

Definition HadRuntimeError (reporter : t) : bool := hadRuntimeErr reporter.
End SimpleReporter.

(** The second version of the reporter in the repository: it differs in
    [NewSimpleReporter]'s spelling, in the name of the runtime error's type
    and in [Reset]. *)
Module SimpleReporter2.
Record t := mk {
  writer : string;
  hadErr : bool;
  hadRuntimeErr : bool
}.

Definition NewSimpleReporter (w : string) : t := mk w false false.

Definition Report (err : GoError) (reporter : t) : t :=
  let w := writer reporter ++ errorText err ++ newline in
  if isRuntimeErr err
  then mk w (hadErr reporter) true
  else mk w true (hadRuntimeErr reporter).

Definition Reset (reporter : t) : t :=
  mk (writer reporter) false false.

Definition HadError (reporter : t) : bool := hadErr reporter.

Definition HadRuntimeError (reporter : t) : bool := hadRuntimeErr reporter.
End SimpleReporter2.

(** ** The command line: [main]

    This [main] scans the script and prints its tokens.  The scanner, the
    standard input and the file system are outside the sources: [scan]
    gives what scanning a script reports and the tokens it returns, as
    [fmt.Println] shows them; [stdin] the lines read before the end of the
    input and [stdinErr] the error the line reader ends with, if any;
    [readFile] the contents of a file or the error of reading it. *)
Record Host := mkHost {
  scan : string -> list GoError * list string;
  stdin : list string;
  stdinErr : option GoError;
  readFile : string -> GoError + string
}.

(** Modelled from the spec: the reporter that [main] makes comes from the
    package [glox/internal/errors], which is not among the sources.  The
    reporter contract (report writes a human-readable diagnostic and
    classifies the error as static or runtime; hadError and
    hadRuntimeError are polled by the driver) is the one that reporter.go
    implements; its [NewSimpleReporter] stands for the missing one. *)
Definition gloxErrorsNewSimpleReporter (w : string) : SimpleReporter.t :=
  SimpleReporter.NewSimpleReporter w.

(** [os.Stdout] is the writer the reporter is made with: what [main]
    prints and what the reporter writes go to the same stream. *)
Definition Print (text : string) (reporter : SimpleReporter.t)
  : SimpleReporter.t :=
  SimpleReporter.mk (SimpleReporter.writer reporter ++ text)
    (SimpleReporter.hadErr reporter) (SimpleReporter.hadRuntimeErr reporter).

Definition run (h : Host) (script : string) (reporter : SimpleReporter.t)
  : SimpleReporter.t :=
  let '(errs, toks) := scan h script in
  let reporter := fold_left (fun r e => SimpleReporter.Report e r) errs reporter in
  fold_left (fun r tok => Print (tok ++ newline) r) toks reporter.

Fixpoint promptLoop (h : Host) (lines : list string)
  (reporter : SimpleReporter.t) : SimpleReporter.t :=
  let reporter := Print "> " reporter in
  match lines with
  | [] => reporter
  | line :: rest => promptLoop h rest (run h line reporter)
  end.

Definition runPrompt (h : Host) (reporter : SimpleReporter.t)
  : SimpleReporter.t :=
  let reporter := promptLoop h (stdin h) reporter in
  match stdinErr h with
  | Some err => SimpleReporter.Report err reporter
  | None => reporter
  end.

Definition runFile (h : Host) (fpath : string) (reporter : SimpleReporter.t)
  : SimpleReporter.t :=
  match readFile h fpath with
  | inl err => SimpleReporter.Report err reporter
  | inr bytes => run h bytes reporter
  end.

(** [main], given [os.Args[1:]]: the exit code of the process and what it
    has written to the standard output.  Returning from [main] is exit
    code 0. *)
Definition main (h : Host) (args : list string) : Z * string :=
  if Nat.ltb 1 (length args) then
    (64%Z, "Usage: glox [script]" ++ newline)
  else
    let reporter := gloxErrorsNewSimpleReporter "" in
    let reporter :=
      if negb (Nat.eqb (length args) 1) then runPrompt h reporter
      else runFile h (hd "" args) reporter in
    if SimpleReporter.HadError reporter
    then (65%Z, SimpleReporter.writer reporter)
    else (0%Z, SimpleReporter.writer reporter).


(** ** Running a program: [Interpret]

    The [Reporter] interface of reporter.go, with its two
    implementations. *)
Class Reporter (R : Type) := {
  Report : GoError -> R -> R;
  Reset : R -> R;
  HadError : R -> bool;
  HadRuntimeError : R -> bool
}.

#[export] Instance SimpleReporter_Reporter : Reporter SimpleReporter.t := {
  Report := SimpleReporter.Report;
  Reset := SimpleReporter.Reset;
  HadError := SimpleReporter.HadError;
  HadRuntimeError := SimpleReporter.HadRuntimeError
}.

#[export] Instance SimpleReporter2_Reporter : Reporter SimpleReporter2.t := {
  Report := SimpleReporter2.Report;
  Reset := SimpleReporter2.Reset;
  HadError := SimpleReporter2.HadError;
  HadRuntimeError := SimpleReporter2.HadRuntimeError
}.

(** An interpreter's error as the reporter sees it: what
    [newRuntimeError] makes is a runtime error, a return signal is not.
    The [Error()] methods are outside the sources: [errorString] stands
    for them. *)
Definition asGoError (errorString : error -> string) (err : error)
  : GoError :=
  match err with
  | runtimeError _ _ => RuntimeError (errorString err)
  | callReturn _ => OtherError (errorString err)
  end.

(** [Interpret]: execute the statements in order; report the first error
    and stop there.  The result is [Ok] when [Interpret] returns; each
    statement runs with [fuel]. *)
Fixpoint Interpret {R} `{Reporter R}
  (stringify : Interpreter.t -> Value -> string) (wallClock : nat -> float)
  (errorString : error -> string) (fuel : nat) (statements : list Stmt)
  (s : Interpreter.t) (reporter : R) : result unit * Interpreter.t * R :=
  match statements with
  | [] => (Ok tt, s, reporter)
  | stmt :: rest =>
      match exec stringify wallClock fuel stmt s with
      | (Ok _, s') =>
          Interpret stringify wallClock errorString fuel rest s' reporter
      | (Err err, s') =>
          (Ok tt, s', Report (asGoError errorString err) reporter)
      | (Panic msg, s') => (Panic msg, s', reporter)
      | (Timeout, s') => (Timeout, s', reporter)
      end
  end.

(** ** Notions the properties are stated with *)

(** The values [vs] of the expressions [Args], each evaluated in the state
    its left neighbour left, the first one in [s]; [s'] is the state after
    the last one. *)
Inductive argsInOrder (ev : Expr -> M Value)
  : list Expr -> Interpreter.t -> list Value -> Interpreter.t -> Prop :=
| argsInOrder_nil s : argsInOrder ev [] s [] s
| argsInOrder_cons arg rest s v s1 vs s2 :
    ev arg s = (Ok v, s1) ->
    argsInOrder ev rest s1 vs s2 ->
    argsInOrder ev (arg :: rest) s (v :: vs) s2.

(** The two kinds of expression whose value the REPL does not print. *)
Definition isAssignOrCall (E : Expr) : bool :=
  match E with
  | AssignExpr _ _ _ | CallExpr _ _ _ => true
  | _ => false
  end.

(** The fields of the interpreter that no visiting method is meant to
    leave changed. *)
Definition sameFrame (s s' : Interpreter.t) : Prop :=
  Interpreter.globals s' = Interpreter.globals s
  /\ Interpreter.environment s' = Interpreter.environment s
  /\ Interpreter.locals s' = Interpreter.locals s
  /\ Interpreter.isREPL s' = Interpreter.isREPL s.

Definition keeps {A} (m : M A) : Prop :=
  forall s, sameFrame s (snd (m s)).

(** An error that is not a runtime error: a scan, parse or resolve error,
    or an error of the host. *)
Definition isStaticErr (err : GoError) : bool := negb (isRuntimeErr err).

(** The operators of [VisitBinaryExpr] that take two numbers only, and
    those of them that answer a boolean. *)
Definition isNumericOp (ty : TokenType) : bool :=
  match ty with
  | GREATER | GREATER_EQUAL | LESS | LESS_EQUAL | MINUS | SLASH | STAR => true
  | _ => false
  end.

Definition isComparisonOp (ty : TokenType) : bool :=
  match ty with
  | GREATER | GREATER_EQUAL | LESS | LESS_EQUAL => true
  | _ => false
  end.

Definition isNumber (v : Value) : bool :=
  match v with VNumber _ => true | _ => false end.

Definition isBool (v : Value) : bool :=
  match v with VBool _ => true | _ => false end.

(** The output of [s'] is the output of [s] with something appended. *)
Definition outputGrows (s s' : Interpreter.t) : Prop :=
  exists suffix, Interpreter.output s' = Interpreter.output s ++ suffix.

(** Every object of [s] is still there in [s'] and is the same kind of
    thing: functions and classes are as they were, an instance has the
    class it had, an environment the parent it had. *)
Definition objectsStay (s s' : Interpreter.t) : Prop :=
  Interpreter.functions s `prefix_of` Interpreter.functions s'
  /\ Interpreter.classes s `prefix_of` Interpreter.classes s'
  /\ (forall p i, Interpreter.instances s !! p = Some i ->
        exists i', Interpreter.instances s' !! p = Some i'
                   /\ klass i' = klass i)
  /\ (forall p e, Interpreter.envs s !! p = Some e ->
        exists e', Interpreter.envs s' !! p = Some e'
                   /\ enclosing e' = enclosing e).

(** A relation between states that every update the interpreter makes to
    its state satisfies. *)
Record closedUnderUpdates (R : Interpreter.t -> Interpreter.t -> Prop)
  : Prop := {
  closed_refl : forall s, R s s;
  closed_trans : forall s1 s2 s3, R s1 s2 -> R s2 s3 -> R s1 s3;
  closed_environment : forall s env, R s (Interpreter.set_environment env s);
  closed_envs_alloc : forall s frame,
    R s (Interpreter.set_envs (Interpreter.envs s ++ [frame]) s);
  closed_envs_write : forall s p e key v,
    Interpreter.envs s !! p = Some e ->
    R s (Interpreter.set_envs
           (<[p := mkEnvironment (<[key := v]> (values e)) (enclosing e)]>
              (Interpreter.envs s)) s);
  closed_functions_alloc : forall s f,
    R s (Interpreter.set_functions (Interpreter.functions s ++ [f]) s);
  closed_classes_alloc : forall s c,
    R s (Interpreter.set_classes (Interpreter.classes s ++ [c]) s);
  closed_instances_alloc : forall s cls,
    R s (Interpreter.set_instances
           (Interpreter.instances s ++ [mkInstance cls ∅]) s);
  closed_instances_write : forall s p i key v,
    Interpreter.instances s !! p = Some i ->
    R s (Interpreter.set_instances
           (<[p := mkInstance (klass i) (<[key := v]> (fields i))]>
              (Interpreter.instances s)) s);
  closed_output : forall s text,
    R s (Interpreter.set_output (Interpreter.output s ++ text) s);
  closed_clockCalls : forall s,
    R s (Interpreter.set_clockCalls (S (Interpreter.clockCalls s)) s)
}.

Definition respects (R : Interpreter.t -> Interpreter.t -> Prop) {A}
  (m : M A) : Prop :=
  forall s, R s (snd (m s)).

(** The lines that [fmt.Fprintln] and [fmt.Println] write for a list of
    texts. *)
Definition linesOf (texts : list string) : string :=
  fold_right (fun text rest => text ++ newline ++ rest) "" texts.

(** This [main] runs the scanner and never the interpreter: what its host
    reports (the errors of the scanner, of the line reader and of reading
    the file) is never a runtime error. *)
Definition reportsNoRuntimeError (h : Host) : Prop :=
  (forall script, existsb isRuntimeErr (fst (scan h script)) = false)
  /\ (forall err, stdinErr h = Some err -> isRuntimeErr err = false)
  /\ (forall fpath err,
        readFile h fpath = inl err -> isRuntimeErr err = false).

(** What [run] writes for a script: a line for each error the scanner
    reports, then a line for each token. *)
Definition scriptOutput (h : Host) (script : string) : string :=
  linesOf (map errorText (fst (scan h script)))
  ++ linesOf (snd (scan h script)).

(** What the prompt loop writes for the lines it reads: a prompt and the
    output of [run] for each line, and one more prompt. *)
Definition promptOutput (h : Host) (lines : list string) : string :=
  fold_right (fun line rest => "> " ++ scriptOutput h line ++ rest) "> " lines.

(** Whether an interpreter's error is a runtime error. *)
Definition isRuntimeError (err : error) : bool :=
  match err with
  | runtimeError _ _ => true
  | callReturn _ => false
  end.

(** ** Sample programs

    The inputs at which the properties below are instantiated. *)
Module Sample.
Definition tok (ty : TokenType) (lexeme : string) : Token :=
  mkToken ty lexeme VNil 1.
Definition ident (lexeme : string) : Token := tok IDENTIFIER lexeme.
Definition number (x : float) : Expr := LiteralExpr (VNumber x).
Definition text (x : string) : Expr := LiteralExpr (VString x).
Definition paren : Token := tok RIGHT_PAREN ")".

Definition plus : Token := tok PLUS "+".
Definition slash : Token := tok SLASH "/".
Definition equalEqual : Token := tok EQUAL_EQUAL "==".
Definition bangEqual : Token := tok BANG_EQUAL "!=".
Definition or : Token := tok OR "or".
Definition and : Token := tok AND "and".

(** A script interpreter and a REPL interpreter, as [NewInterpreter]
    makes them. *)
Definition script : Interpreter.t := NewInterpreter false.
Definition repl : Interpreter.t := NewInterpreter true.

(** [0/0], which is NaN. *)
Definition zeroOverZero : Expr := BinaryExpr (number 0) slash (number 0).

(** [clock(1)]: a call with one argument too many. *)
Definition clockOfOne : Expr :=
  CallExpr (VarExpr 1 (ident "clock")) paren [number 1].

(** [nil(1)]: a call of a value that is not callable. *)
Definition nilOfOne : Expr :=
  CallExpr (LiteralExpr VNil) paren [number 1].

(** [class Point {}  var p = Point();], then the state they leave. *)
Definition pointProgram : list Stmt :=
  [ClassStmt (ident "Point") None [];
   VarStmt (ident "p")
     (Some (CallExpr (VarExpr 1 (ident "Point")) paren []))].
Definition withPoint : Interpreter.t :=
  snd (execStmts (exec stringifySample clockSample 10) pointProgram script).

(** [p.x = 3] and [1.x = 3]. *)
Definition setPointX : Expr :=
  SetExpr (VarExpr 2 (ident "p")) (ident "x") (number 3).
Definition setOneX : Expr :=
  SetExpr (number 1) (ident "x") (number 3).

(** [var a;] then [a = 7]. *)
Definition withA : Interpreter.t :=
  snd (exec stringifySample clockSample 3 (VarStmt (ident "a") None) repl).
Definition assignA : Expr := AssignExpr 3 (ident "a") (number 7).
(** [{ var a = 1; }], [{ nil(); }] and [{ return 1; }]: a block that
    ends normally, one that raises a runtime error, one that returns. *)
Definition blockNormal : list Stmt := [VarStmt (ident "a") (Some (number 1))].
Definition blockError : list Stmt :=
  [ExprStmt (CallExpr (LiteralExpr VNil) paren [])].
Definition blockReturn : list Stmt :=
  [ReturnStmt (tok RETURN "return") (Some (number 1))].

(** A host whose scanner reports nothing and returns the script as its
    one token; it has one line on its input and a file of one line. *)
Definition quiet : Host :=
  mkHost (fun script => ([], [script])) ["1"] None (fun _ => inr "print 1;").

(** [class Point {}  var p = Point();] in the REPL, then the state they
    leave. *)
Definition replWithPoint : Interpreter.t :=
  snd (execStmts (exec stringifySample clockSample 10) pointProgram repl).
(** A script interpreter in which a second environment exists, for a
    block to run in. *)
Definition withChild : Interpreter.t :=
  snd (newEnvironment (Some 0) script).
(** Modelled from the spec: a runtime error shows as its message and
    [[line N]] on the next line. *)
Definition errorString (err : error) : string :=
  match err with
  | runtimeError token message =>
      message ++ newline ++ "[line " ++ itoa (Line token) ++ "]"
  | callReturn _ => "return"
  end.

(** [print 1; nil(); print 2;] *)
Definition printFailPrint : list Stmt :=
  [PrintStmt (number 1);
   ExprStmt (CallExpr (LiteralExpr VNil) paren []);
   PrintStmt (number 2)].

(** A host with two lines on its input, whose scanner reports an error
    for the empty script and returns the script as its one token
    otherwise; it has no file. *)
Definition echo : Host :=
  mkHost
    (fun script =>
       if String.eqb script "" then ([OtherError "empty"], [])
       else ([], [script]))
    ["1"; ""] None (fun _ => inl (OtherError "no such file")).
Definition bang : Token := tok BANG "!".
Definition minus : Token := tok MINUS "-".

(** [var i = true;] then [while (i) i = false;]. *)
Definition withI : Interpreter.t :=
  snd (exec stringifySample clockSample 3
         (VarStmt (ident "i") (Some (LiteralExpr (VBool true)))) script).
Definition untilFalse : Stmt :=
  WhileStmt (VarExpr 4 (ident "i"))
    (ExprStmt (AssignExpr 5 (ident "i") (LiteralExpr (VBool false)))).

(** [class B < clock {}]. *)
Definition classFromClock : Stmt :=
  ClassStmt (ident "B") (Some (1, ident "clock")) [].

(** A script interpreter in which the resolver has put node 9 at
    distance 0. *)
Definition resolved : Interpreter.t := resolve 9 0 script.

(** [clock(1, nil(1), 2)]. *)
Definition clockOfThree : Expr :=
  CallExpr (VarExpr 1 (ident "clock")) paren [number 1; nilOfOne; number 2].
End Sample.

(** The interpreter with the sample [stringify] and clock. *)
Abbreviation sample_eval := (eval stringifySample clockSample).
Abbreviation sample_exec := (exec stringifySample clockSample).

(** * Properties *)

Section Properties.

Variable stringify : Interpreter.t -> Value -> string.
Variable wallClock : nat -> float.

(** ** The monad *)

Lemma bind_Ok {A B} (m : M A) (k : A -> M B) s a s' :
  m s = (Ok a, s') -> bind m k s = k a s'.
Proof. unfold bind. intros ->. reflexivity. Qed.

Lemma bind_Err {A B} (m : M A) (k : A -> M B) s e s' :
  m s = (Err e, s') -> bind m k s = (Err e, s').
Proof. unfold bind. intros ->. reflexivity. Qed.

Lemma bind_inv_Ok {A B} (m : M A) (k : A -> M B) s b s' :
  bind m k s = (Ok b, s') ->
  exists a s1, m s = (Ok a, s1) /\ k a s1 = (Ok b, s').
Proof.
  unfold bind. destruct (m s) as [[a | e | msg |] s1]; intros H;
    try discriminate.
  exists a, s1. split; [reflexivity | exact H].
Qed.

(** ** Binary operators *)

Lemma eval_binary n Lhs Op Rhs lhs rhs s s1 s2 :
  eval stringify wallClock n Lhs s = (Ok lhs, s1) ->
  eval stringify wallClock n Rhs s1 = (Ok rhs, s2) ->
  eval stringify wallClock (S n) (BinaryExpr Lhs Op Rhs) s = binaryOp Op lhs rhs s2.
Proof.
  intros Hl Hr. simpl. unfold VisitBinaryExpr.
  rewrite (bind_Ok _ _ _ _ _ Hl), (bind_Ok _ _ _ _ _ Hr). reflexivity.
Qed.

(** C4.  For a Binary expression whose operator is [+] and whose operands
    evaluate to [lhs] and [rhs]: two numbers give their sum, two strings
    their concatenation, and every other pair fails with the runtime error
    "Operands must be two numbers or two strings." *)
Theorem plus_adds_numbers_or_concatenates_strings :
  forall n Lhs Op Rhs lhs rhs s s1 s2,
    Type_ Op = PLUS ->
    eval stringify wallClock n Lhs s = (Ok lhs, s1) ->
    eval stringify wallClock n Rhs s1 = (Ok rhs, s2) ->
    eval stringify wallClock (S n) (BinaryExpr Lhs Op Rhs) s =
      match lhs, rhs with
      | VNumber x, VNumber y => (Ok (VNumber (x + y)%float), s2)
      | VString x, VString y => (Ok (VString (x ++ y)), s2)
      | _, _ =>
          (Err (runtimeError Op
                  "Operands must be two numbers or two strings."), s2)
      end.
Proof.
  intros n Lhs Op Rhs lhs rhs s s1 s2 HOp Hl Hr.
  rewrite (eval_binary _ _ _ _ _ _ _ _ _ Hl Hr).
  unfold binaryOp. rewrite HOp.
  destruct lhs, rhs; reflexivity.
Qed.

(** ** Equality *)

Lemma interfaceNe_negb a b : interfaceNe a b = negb (interfaceEq a b).
Proof.
  destruct a, b; simpl; try reflexivity.
  destruct b, b0; reflexivity.
Qed.

Lemma interfaceEq_same_value a b :
  (forall x, a <> VNumber x) \/ (forall y, b <> VNumber y) ->
  interfaceEq a b = true <-> a = b.
Proof.
  intros Hnum. destruct a, b; simpl; split; intros H;
    try discriminate; try reflexivity.
  - apply Bool.eqb_prop in H. congruence.
  - injection H as ->. apply Bool.eqb_reflx.
  - destruct Hnum as [Hn | Hn]; [destruct (Hn x) | destruct (Hn x0)];
      reflexivity.
  - destruct Hnum as [Hn | Hn]; [destruct (Hn x) | destruct (Hn x0)];
      reflexivity.
  - apply String.eqb_eq in H. congruence.
  - injection H as ->. apply String.eqb_refl.
  - apply Nat.eqb_eq in H. congruence.
  - injection H as ->. apply Nat.eqb_refl.
  - apply Nat.eqb_eq in H. congruence.
  - injection H as ->. apply Nat.eqb_refl.
  - apply Nat.eqb_eq in H. congruence.
  - injection H as ->. apply Nat.eqb_refl.
Qed.

Lemma interfaceEq_types a b :
  dynType a <> dynType b -> interfaceEq a b = false.
Proof. destruct a, b; simpl; intros H; congruence. Qed.

(** C3, as the code has it.  For operands that evaluate to [a] and [b],
    [a == b] and [a != b] both yield a boolean, never an error, and the
    second is the negation of the first; [nil == nil] is true; values of
    different types are unequal; two numbers are equal when IEEE-754
    equality says so; in every other case the values are equal exactly when
    they are the same value: the same boolean, the same string, the same
    function, class or instance object. *)
Theorem equality_is_total_and_negated_by_bang_equal :
  forall n Lhs Rhs OpEq OpNe a b s s1 s2,
    Type_ OpEq = EQUAL_EQUAL ->
    Type_ OpNe = BANG_EQUAL ->
    eval stringify wallClock n Lhs s = (Ok a, s1) ->
    eval stringify wallClock n Rhs s1 = (Ok b, s2) ->
    eval stringify wallClock (S n) (BinaryExpr Lhs OpEq Rhs) s
      = (Ok (VBool (interfaceEq a b)), s2)
    /\ eval stringify wallClock (S n) (BinaryExpr Lhs OpNe Rhs) s
      = (Ok (VBool (negb (interfaceEq a b))), s2)
    /\ interfaceEq VNil VNil = true
    /\ (dynType a <> dynType b -> interfaceEq a b = false)
    /\ (forall x y, a = VNumber x -> b = VNumber y ->
          interfaceEq a b = PrimFloat.eqb x y)
    /\ ((forall x, a <> VNumber x) \/ (forall y, b <> VNumber y) ->
          (interfaceEq a b = true <-> a = b)).
Proof.
  intros n Lhs Rhs OpEq OpNe a b s s1 s2 HEq HNe Hl Hr.
  rewrite !(eval_binary _ _ _ _ _ _ _ _ _ Hl Hr).
  unfold binaryOp. rewrite HEq, HNe, interfaceNe_negb.
  repeat split.
  - apply interfaceEq_types.
  - intros x y -> ->. reflexivity.
  - apply interfaceEq_same_value. assumption.
  - apply interfaceEq_same_value. assumption.
Qed.

(** ** Logical operators *)

(** C5.  A Logical expression evaluates its left operand first.  [or]
    gives the left value when it is truthy, [and] gives it when it is
    falsy, and then the state is the one the left operand left, whatever
    the right operand is: the right operand is not evaluated.  Otherwise
    the result is that of the right operand, evaluated after the left
    one. *)
Theorem logical_short_circuit :
  forall n Lhs Op Rhs lhs s s1,
    eval stringify wallClock n Lhs s = (Ok lhs, s1) ->
    (Type_ Op = OR -> truthy lhs = true ->
       forall Rhs',
         eval stringify wallClock (S n) (LogicalExpr Lhs Op Rhs') s = (Ok lhs, s1))
    /\ (Type_ Op = OR -> truthy lhs = false ->
          eval stringify wallClock (S n) (LogicalExpr Lhs Op Rhs) s = eval stringify wallClock n Rhs s1)
    /\ (Type_ Op = AND -> truthy lhs = false ->
          forall Rhs',
            eval stringify wallClock (S n) (LogicalExpr Lhs Op Rhs') s = (Ok lhs, s1))
    /\ (Type_ Op = AND -> truthy lhs = true ->
          eval stringify wallClock (S n) (LogicalExpr Lhs Op Rhs) s = eval stringify wallClock n Rhs s1).
Proof.
  intros n Lhs Op Rhs lhs s s1 Hl.
  repeat split; intros HOp Ht; intros; simpl; unfold VisitLogicalExpr;
    rewrite (bind_Ok _ _ _ _ _ Hl), HOp, Ht; reflexivity.
Qed.

(** ** Property assignment and variable assignment *)

(** C9.  A Set expression evaluates its object first.  If the value is
    not an instance the expression fails with "Only instances have
    fields." in the state the object left, whatever the value
    subexpression is.  If it is an instance (a pointer [p] to an instance
    [i]), the value subexpression is evaluated next and the field is
    written, whether or not the instance had it; nothing else changes. *)
Theorem set_requires_instance_then_writes :
  forall n Obj Name Val obj s s1,
    eval stringify wallClock n Obj s = (Ok obj, s1) ->
    ((forall p, obj <> VInstance p) ->
       forall Val',
         eval stringify wallClock (S n) (SetExpr Obj Name Val') s
         = (Err (runtimeError Name "Only instances have fields."), s1))
    /\ (forall p v s2 i,
          obj = VInstance p ->
          eval stringify wallClock n Val s1 = (Ok v, s2) ->
          Interpreter.instances s2 !! p = Some i ->
          exists s3 i',
            eval stringify wallClock (S n) (SetExpr Obj Name Val) s = (Ok v, s3)
            /\ s3 = Interpreter.set_instances
                      (<[p := i']> (Interpreter.instances s2)) s2
            /\ Interpreter.instances s3 !! p = Some i'
            /\ klass i' = klass i
            /\ fields i' !! Lexeme Name = Some v
            /\ (forall key, key <> Lexeme Name ->
                  fields i' !! key = fields i !! key)).
Proof.
  intros n Obj Name Val obj s s1 Ho. split.
  - intros Hni Val'. simpl. unfold VisitSetExpr.
    rewrite (bind_Ok _ _ _ _ _ Ho).
    destruct obj; try reflexivity. destruct (Hni p). reflexivity.
  - intros p v s2 i -> Hv Hi.
    exists (Interpreter.set_instances
              (<[p := mkInstance (klass i) (<[Lexeme Name := v]> (fields i))]>
                 (Interpreter.instances s2)) s2),
           (mkInstance (klass i) (<[Lexeme Name := v]> (fields i))).
    split; [| split; [reflexivity | split; [| split; [reflexivity | split]]]].
    + simpl. unfold VisitSetExpr.
      rewrite (bind_Ok _ _ _ _ _ Ho), (bind_Ok _ _ _ _ _ Hv).
      unfold bind, instanceSet. rewrite Hi. reflexivity.
    + simpl. apply list_lookup_insert_eq.
      apply lookup_lt_Some with (x := i). exact Hi.
    + simpl. apply lookup_insert_eq.
    + intros key Hkey. simpl. apply lookup_insert_ne. congruence.
Qed.

(** ** Calls *)

Lemma evalArgs_in_order ev Args s vs s' :
  argsInOrder ev Args s vs s' ->
  forall acc, evalArgs ev Args acc s = (Ok (acc ++ vs)%list, s').
Proof.
  induction 1 as [s | arg rest s v s1 vs s2 Harg _ IH]; intros acc; simpl.
  - unfold ret. rewrite app_nil_r. reflexivity.
  - rewrite (bind_Ok _ _ _ _ _ Harg), IH, <- app_assoc. reflexivity.
Qed.

Lemma in_order_evalArgs ev Args :
  forall acc s all s',
    evalArgs ev Args acc s = (Ok all, s') ->
    exists vs, all = (acc ++ vs)%list /\ argsInOrder ev Args s vs s'.
Proof.
  induction Args as [| arg rest IH]; intros acc s all s' H; simpl in H.
  - unfold ret in H. injection H as <- <-.
    exists []. rewrite app_nil_r. split; [reflexivity | constructor].
  - apply bind_inv_Ok in H as (v & s1 & Harg & H).
    apply IH in H as (vs & -> & Hrest).
    exists (v :: vs). rewrite <- app_assoc. split; [reflexivity |].
    econstructor; eassumption.
Qed.

Lemma argsInOrder_length ev Args s vs s' :
  argsInOrder ev Args s vs s' -> length vs = length Args.
Proof. induction 1; simpl; congruence. Qed.

(** A callee that fails ends the call: no argument is evaluated. *)
Lemma call_fails_with_its_callee n Callee Paren Args e s s1 :
  eval stringify wallClock n Callee s = (Err e, s1) ->
  eval stringify wallClock (S n) (CallExpr Callee Paren Args) s = (Err e, s1).
Proof.
  intros Hc. simpl. unfold VisitCallExpr.
  apply (bind_Err _ _ _ _ _ Hc).
Qed.

(** X14.  An argument that fails ends the call: the arguments to its
    right are not evaluated, and whether the callee is callable is not
    looked at. *)
Lemma call_fails_with_its_first_failing_argument
  n Callee Paren Before arg After callee vs e s s1 s2 s3 :
  eval stringify wallClock n Callee s = (Ok callee, s1) ->
  argsInOrder (eval stringify wallClock n) Before s1 vs s2 ->
  eval stringify wallClock n arg s2 = (Err e, s3) ->
  eval stringify wallClock (S n)
    (CallExpr Callee Paren (Before ++ arg :: After)) s
  = (Err e, s3).
Proof.
  intros Hc Hbefore Harg. simpl. unfold VisitCallExpr.
  rewrite (bind_Ok _ _ _ _ _ Hc).
  assert (Hargs : forall acc,
             evalArgs (eval stringify wallClock n) (Before ++ arg :: After)
               acc s1 = (Err e, s3)).
  { clear Hc. induction Hbefore as [s0 | a rest s0 v s0' vs s0'' Ha _ IH];
      intros acc; simpl.
    - apply (bind_Err _ _ _ _ _ Harg).
    - rewrite (bind_Ok _ _ _ _ _ Ha). apply IH. exact Harg. }
  apply (bind_Err _ _ _ _ _ (Hargs [])).
Qed.

(** C1.  A Call expression evaluates its callee first and then its
    arguments from left to right, each in the state the one before it
    left.  After that, a callee that is not callable fails with "Can only
    call functions and classes.", and a callable whose arity [N] is not
    the number [M] of arguments fails with "Expected N arguments but got
    M."; in both cases the state is the one the last argument left, so no
    part of the callee has run.  With the right number of arguments the
    call is dispatched. *)
Theorem call_checks_callable_then_arity :
  forall n Callee Paren Args callee args s s1 s2,
    eval stringify wallClock n Callee s = (Ok callee, s1) ->
    argsInOrder (eval stringify wallClock n) Args s1 args s2 ->
    (asCallable callee = None ->
       eval stringify wallClock (S n) (CallExpr Callee Paren Args) s
       = (Err (runtimeError Paren "Can only call functions and classes."),
          s2))
    /\ (forall c N,
          asCallable callee = Some c ->
          arity s2 c = Some N ->
          length args <> N ->
          eval stringify wallClock (S n) (CallExpr Callee Paren Args) s
          = (Err (runtimeError Paren
                    ("Expected " ++ itoa N ++ " arguments but got "
                     ++ itoa (length args) ++ ".")), s2))
    /\ (forall c,
          asCallable callee = Some c ->
          arity s2 c = Some (length args) ->
          eval stringify wallClock (S n) (CallExpr Callee Paren Args) s
          = call wallClock (exec stringify wallClock n) c args s2).
Proof.
  intros n Callee Paren Args callee args s s1 s2 Hc Hargs.
  apply evalArgs_in_order with (acc := []) in Hargs. simpl in Hargs.
  repeat split.
  - intros Hnone. simpl. unfold VisitCallExpr.
    rewrite (bind_Ok _ _ _ _ _ Hc), (bind_Ok _ _ _ _ _ Hargs), Hnone.
    reflexivity.
  - intros c N Hsome HN Hne. simpl. unfold VisitCallExpr.
    rewrite (bind_Ok _ _ _ _ _ Hc), (bind_Ok _ _ _ _ _ Hargs), Hsome.
    unfold bind at 1, deref. rewrite HN.
    apply Nat.eqb_neq in Hne. rewrite Hne. reflexivity.
  - intros c Hsome HN. simpl. unfold VisitCallExpr.
    rewrite (bind_Ok _ _ _ _ _ Hc), (bind_Ok _ _ _ _ _ Hargs), Hsome.
    unfold bind at 1, deref. rewrite HN, Nat.eqb_refl. reflexivity.
Qed.

(** ** What evaluation leaves unchanged

    No visiting method changes [globals], [locals] or [isREPL], and each
    one leaves [environment] as it found it. *)

Lemma sameFrame_refl s : sameFrame s s.
Proof. repeat split. Qed.

Lemma sameFrame_trans s1 s2 s3 :
  sameFrame s1 s2 -> sameFrame s2 s3 -> sameFrame s1 s3.
Proof.
  unfold sameFrame. intros (? & ? & ? & ?) (? & ? & ? & ?).
  repeat split; congruence.
Qed.

Lemma keeps_ret {A} (a : A) : keeps (ret a).
Proof. intros s. apply sameFrame_refl. Qed.

Lemma keeps_fail {A} e : keeps (@fail A e).
Proof. intros s. apply sameFrame_refl. Qed.

Lemma keeps_panic {A} msg : keeps (@panic A msg).
Proof. intros s. apply sameFrame_refl. Qed.

Lemma keeps_timeout {A} : keeps (@timeout A).
Proof. intros s. apply sameFrame_refl. Qed.

Lemma keeps_gets {A} (f : Interpreter.t -> A) : keeps (gets f).
Proof. intros s. apply sameFrame_refl. Qed.

Lemma keeps_deref {A} (f : Interpreter.t -> option A) : keeps (deref f).
Proof. intros s. unfold deref. destruct (f s); apply sameFrame_refl. Qed.

Lemma keeps_bind {A B} (m : M A) (k : A -> M B) :
  keeps m -> (forall a, keeps (k a)) -> keeps (bind m k).
Proof.
  intros Hm Hk s. unfold bind. specialize (Hm s).
  destruct (m s) as [[a | e | msg |] s1]; simpl in *; try exact Hm.
  eapply sameFrame_trans; [exact Hm | apply Hk].
Qed.

Lemma keeps_newEnvironment parent : keeps (newEnvironment parent).
Proof. intros s. repeat split. Qed.

Lemma keeps_writeVar env key v : keeps (writeVar env key v).
Proof.
  intros s. unfold writeVar.
  destruct (Interpreter.envs s !! env); repeat split.
Qed.

Lemma keeps_newFunction decl env isInit :
  keeps (newFunction decl env isInit).
Proof. intros s. repeat split. Qed.

Lemma keeps_newClass nm super ms : keeps (newClass nm super ms).
Proof. intros s. repeat split. Qed.

Lemma keeps_newInstance cls : keeps (newInstance cls).
Proof. intros s. repeat split. Qed.

Lemma keeps_instanceSet inst key v : keeps (instanceSet inst key v).
Proof.
  intros s. unfold instanceSet.
  destruct (Interpreter.instances s !! inst); repeat split.
Qed.

Lemma keeps_get env key : keeps (get env key).
Proof. intros s. apply sameFrame_refl. Qed.

Lemma keeps_Fprintln text : keeps (Fprintln text).
Proof. intros s. repeat split. Qed.

Lemma keeps_clockCall : keeps (clockCall wallClock).
Proof. intros s. repeat split. Qed.

Create HintDb keeps.
#[local] Hint Resolve keeps_ret keeps_fail keeps_panic keeps_timeout
  keeps_gets keeps_deref keeps_newEnvironment keeps_writeVar
  keeps_newFunction keeps_newClass keeps_newInstance keeps_instanceSet
  keeps_get keeps_Fprintln keeps_clockCall : keeps.

(** One step of a proof of [keeps]: split a [bind], take a [match] or an
    [if] apart, or finish with a lemma of the database. *)
Ltac keeps_step :=
  match goal with
  | |- keeps (bind _ _) => apply keeps_bind; [| intros ?]
  | |- keeps (match ?x with _ => _ end) => destruct x
  | |- keeps (if ?b then _ else _) => destruct b
  | |- keeps _ => solve [eauto with keeps]
  end.
Ltac keeps_auto := repeat keeps_step.

Lemma keeps_define env key v : keeps (define env key v).
Proof. apply keeps_writeVar. Qed.

Lemma keeps_getAt env distance key : keeps (getAt env distance key).
Proof. apply keeps_deref. Qed.

Lemma keeps_assignAt env distance key v :
  keeps (assignAt env distance key v).
Proof. unfold assignAt. keeps_auto. Qed.

Lemma keeps_assign env key v : keeps (assign env key v).
Proof.
  unfold assign. apply keeps_bind; [| intros p; apply keeps_writeVar].
  intros s. apply sameFrame_refl.
Qed.

#[local] Hint Resolve keeps_define keeps_getAt keeps_assignAt keeps_assign
  : keeps.

Lemma keeps_functionBind fn inst : keeps (functionBind fn inst).
Proof. unfold functionBind. keeps_auto. Qed.

#[local] Hint Resolve keeps_functionBind : keeps.

Lemma keeps_instanceGet inst key : keeps (instanceGet inst key).
Proof. unfold instanceGet. keeps_auto. Qed.

Lemma keeps_printValue v : keeps (printValue stringify v).
Proof. unfold printValue. keeps_auto. Qed.

Lemma keeps_binaryOp Op lhs rhs : keeps (binaryOp Op lhs rhs).
Proof. unfold binaryOp. keeps_auto. Qed.

Lemma keeps_lookUpVar key id : keeps (lookUpVar key id).
Proof. unfold lookUpVar. keeps_auto. Qed.

#[local] Hint Resolve keeps_instanceGet keeps_printValue keeps_binaryOp
  keeps_lookUpVar : keeps.

Lemma keeps_buildMethods Methods ms : keeps (buildMethods Methods ms).
Proof.
  revert ms. induction Methods as [| method rest IH]; intros ms; simpl;
    keeps_auto.
Qed.

#[local] Hint Resolve keeps_buildMethods : keeps.

Section Handlers.

(** The visiting methods, given that what they call to evaluate and to
    execute keeps the frame. *)
Variable ev : Expr -> M Value.
Variable ex : Stmt -> M unit.
Hypothesis keeps_ev : forall e, keeps (ev e).
Hypothesis keeps_ex : forall st, keeps (ex st).

#[local] Hint Resolve keeps_ev keeps_ex : keeps.

Lemma keeps_execStmts statements : keeps (execStmts ex statements).
Proof. induction statements; simpl; keeps_auto. Qed.

Lemma keeps_execBlock statements env : keeps (execBlock ex statements env).
Proof.
  intros s. unfold execBlock.
  pose proof (keeps_execStmts statements (Interpreter.set_environment env s))
    as (Hg & _ & Hl & Hr).
  destruct (execStmts ex statements (Interpreter.set_environment env s))
    as [r s1].
  simpl in *. repeat split; assumption.
Qed.

Lemma keeps_defineParams env params args :
  keeps (defineParams env params args).
Proof.
  revert args. induction params as [| param params IH]; intros args;
    simpl; [apply keeps_ret |].
  destruct args; keeps_auto.
Qed.

#[local] Hint Resolve keeps_execStmts keeps_execBlock keeps_defineParams
  : keeps.

Lemma keeps_functionCall fn args : keeps (functionCall ex fn args).
Proof.
  unfold functionCall. keeps_auto. intros s.
  pose proof (keeps_execBlock (fnBody (declaration a)) a0 s) as Hb.
  destruct (execBlock ex (fnBody (declaration a)) a0 s) as [r s1].
  simpl in Hb.
  assert (Hthis : sameFrame s (snd (getAt (closure a) 0 "this" s1))).
  { eapply sameFrame_trans; [exact Hb | apply keeps_getAt]. }
  destruct r as [u | [tk msg | v] | msg |]; try exact Hb;
    destruct (isInitializer a); assumption.
Qed.

#[local] Hint Resolve keeps_functionCall : keeps.

Lemma keeps_classCall cls args : keeps (classCall ex cls args).
Proof. unfold classCall. keeps_auto. Qed.

#[local] Hint Resolve keeps_classCall : keeps.

Lemma keeps_call c args : keeps (call wallClock ex c args).
Proof. unfold call. keeps_auto. Qed.

Lemma keeps_evalArgs Args args : keeps (evalArgs ev Args args).
Proof.
  revert args. induction Args as [| arg rest IH]; intros args; simpl;
    keeps_auto.
Qed.

#[local] Hint Resolve keeps_call keeps_evalArgs : keeps.

Lemma keeps_VisitWhileStmt rounds Cond Body :
  keeps (VisitWhileStmt ev ex rounds Cond Body).
Proof. induction rounds; simpl; keeps_auto. Qed.

Lemma bind_ret_l {A B} (a : A) (k : A -> M B) : bind (ret a) k = k a.
Proof. reflexivity. Qed.

Lemma buildMethods_runs Methods :
  forall ms s,
    exists ms' s',
      buildMethods Methods ms s = (Ok ms', s')
      /\ Interpreter.envs s' = Interpreter.envs s
      /\ sameFrame s s'.
Proof.
  induction Methods as [| method rest IH]; intros ms s; simpl.
  - exists ms, s. repeat split.
  - unfold bind at 1, gets. unfold bind at 1, newFunction.
    edestruct IH as (ms' & s' & -> & He & Hf).
    exists ms', s'. split; [reflexivity |]. simpl in He.
    split; [exact He |].
    destruct Hf as (? & ? & ? & ?). repeat split; assumption.
Qed.

(** The class statement swaps the current environment for one that binds
    [super] and swaps it back; nothing is evaluated in between. *)
Lemma keeps_VisitClassStmt Name Super Methods :
  keeps (VisitClassStmt ev Name Super Methods).
Proof.
  unfold VisitClassStmt. destruct Super as [[id superName] |].
  2: { rewrite bind_ret_l. keeps_auto. }
  intros s. unfold bind at 1. unfold bind at 1.
  pose proof (keeps_ev (VarExpr id superName) s) as Hs1.
  destruct (ev (VarExpr id superName) s) as [[superObj | e | msg |] s1];
    simpl in Hs1; try exact Hs1.
  destruct superObj; try exact Hs1.
  set (cur := Interpreter.environment s1).
  set (env := length (Interpreter.envs s1)).
  set (frame := mkEnvironment (<["super" := VClass p]> ∅) (Some cur)).
  set (s2 := Interpreter.set_envs
               (<[env := frame]>
                  (Interpreter.envs s1 ++ [mkEnvironment ∅ (Some cur)])%list)
               (Interpreter.set_environment env
                  (Interpreter.set_envs
                     (Interpreter.envs s1 ++ [mkEnvironment ∅ (Some cur)])%list
                     s1))).
  assert (Hpush :
    (let* cur := gets Interpreter.environment in
     let* env := newEnvironment (Some cur) in
     modify (Interpreter.set_environment env) ;;
     define env "super" (VClass p) ;; ret (Some p)) s1 = (Ok (Some p), s2)).
  { unfold bind, gets, newEnvironment, modify, define, writeVar, ret. simpl.
    fold cur env.
    replace ((Interpreter.envs s1 ++ [mkEnvironment ∅ (Some cur)])%list !! env)
      with (Some (mkEnvironment ∅ (Some cur)))
      by (symmetry; apply list_lookup_middle; reflexivity).
    reflexivity. }
  rewrite Hpush.
  assert (Hframe : Interpreter.envs s2 !! env = Some frame).
  { simpl. apply list_lookup_insert_eq. rewrite length_app. simpl.
    unfold env. lia. }
  assert (Hs2 : sameFrame s (Interpreter.set_environment cur s2)).
  { destruct Hs1 as (? & ? & ? & ?). repeat split; assumption. }
  assert (Henv2 : Interpreter.environment s2 = env) by reflexivity.
  assert (Hencl : enclosing frame = Some cur) by reflexivity.
  clearbody s2 frame. clear Hpush.
  destruct (buildMethods_runs Methods ∅ s2) as (ms & s3 & Hms & He3 & Hf3).
  rewrite (bind_Ok _ _ _ _ _ Hms).
  unfold bind at 1, newClass. unfold bind at 1. unfold bind at 1, gets.
  unfold bind at 1, deref. simpl.
  assert (Henv3 : Interpreter.environment s3 = env)
    by (destruct Hf3 as (_ & ? & _); congruence).
  rewrite Henv3, He3, Hframe, Hencl. unfold modify.
  match goal with
  | |- sameFrame s (snd (bind _ _ ?s4)) =>
      apply sameFrame_trans with (s2 := s4)
  end.
  - destruct Hs2 as (? & ? & ? & ?), Hf3 as (? & ? & ? & ?).
    repeat split; simpl in *; congruence.
  - match goal with
    | |- sameFrame ?s4 (snd (?m ?s4)) => assert (Hk : keeps m) by keeps_auto
    end.
    apply Hk.
Qed.

Lemma keeps_VisitBlockStmt Stmts : keeps (VisitBlockStmt ex Stmts).
Proof. unfold VisitBlockStmt. keeps_auto. Qed.

Lemma keeps_VisitExprStmt E : keeps (VisitExprStmt stringify ev E).
Proof. unfold VisitExprStmt. keeps_auto. Qed.

Lemma keeps_VisitFunctionStmt decl : keeps (VisitFunctionStmt decl).
Proof. unfold VisitFunctionStmt. keeps_auto. Qed.

Lemma keeps_VisitIfStmt Cond ThenBranch ElseBranch :
  keeps (VisitIfStmt ev ex Cond ThenBranch ElseBranch).
Proof. unfold VisitIfStmt. keeps_auto. Qed.

Lemma keeps_VisitPrintStmt E : keeps (VisitPrintStmt stringify ev E).
Proof. unfold VisitPrintStmt. keeps_auto. Qed.

Lemma keeps_VisitVarStmt Name Init : keeps (VisitVarStmt ev Name Init).
Proof. unfold VisitVarStmt. keeps_auto. Qed.

Lemma keeps_VisitReturnStmt Keyword Val :
  keeps (VisitReturnStmt ev Keyword Val).
Proof. unfold VisitReturnStmt. keeps_auto. Qed.

Lemma keeps_VisitAssignExpr id Name Val :
  keeps (VisitAssignExpr ev id Name Val).
Proof. unfold VisitAssignExpr. keeps_auto. Qed.

Lemma keeps_VisitBinaryExpr Lhs Op Rhs :
  keeps (VisitBinaryExpr ev Lhs Op Rhs).
Proof. unfold VisitBinaryExpr. keeps_auto. Qed.

Lemma keeps_VisitCallExpr Callee Paren Args :
  keeps (VisitCallExpr wallClock ev ex Callee Paren Args).
Proof. unfold VisitCallExpr. keeps_auto. Qed.

Lemma keeps_VisitGetExpr Obj Name : keeps (VisitGetExpr ev Obj Name).
Proof. unfold VisitGetExpr. keeps_auto. Qed.

Lemma keeps_VisitLogicalExpr Lhs Op Rhs :
  keeps (VisitLogicalExpr ev Lhs Op Rhs).
Proof. unfold VisitLogicalExpr. keeps_auto. Qed.

Lemma keeps_VisitSetExpr Obj Name Val : keeps (VisitSetExpr ev Obj Name Val).
Proof. unfold VisitSetExpr. keeps_auto. Qed.

Lemma keeps_VisitSuperExpr id Keyword Method :
  keeps (VisitSuperExpr id Keyword Method).
Proof. unfold VisitSuperExpr. keeps_auto. Qed.

Lemma keeps_VisitUnaryExpr Op Inner : keeps (VisitUnaryExpr ev Op Inner).
Proof. unfold VisitUnaryExpr. keeps_auto. Qed.

End Handlers.

(** Evaluating an expression and executing a statement leave [globals],
    [environment], [locals] and [isREPL] as they were, whatever the
    result. *)
Lemma keeps_eval_exec n :
  (forall e, keeps (eval stringify wallClock n e)) /\ (forall st, keeps (exec stringify wallClock n st)).
Proof.
  induction n as [| n [IHe IHx]]; split.
  - intros e. apply keeps_timeout.
  - intros st. apply keeps_timeout.
  - intros [] ; simpl.
    + apply keeps_VisitAssignExpr; assumption.
    + apply keeps_VisitBinaryExpr; assumption.
    + apply keeps_VisitCallExpr; assumption.
    + apply keeps_VisitGetExpr; assumption.
    + apply IHe.
    + apply keeps_ret.
    + apply keeps_VisitLogicalExpr; assumption.
    + apply keeps_VisitSetExpr; assumption.
    + apply keeps_VisitSuperExpr.
    + apply keeps_lookUpVar.
    + apply keeps_VisitUnaryExpr; assumption.
    + apply keeps_lookUpVar.
  - intros []; simpl.
    + apply keeps_VisitBlockStmt; assumption.
    + apply keeps_VisitClassStmt; assumption.
    + apply keeps_VisitExprStmt; assumption.
    + apply keeps_VisitFunctionStmt.
    + apply keeps_VisitIfStmt; assumption.
    + apply keeps_VisitPrintStmt; assumption.
    + apply keeps_VisitReturnStmt; assumption.
    + apply keeps_VisitVarStmt; assumption.
    + apply keeps_VisitWhileStmt; assumption.
Qed.

Lemma eval_sameFrame n e s r s' :
  eval stringify wallClock n e s = (r, s') -> sameFrame s s'.
Proof.
  intros H. pose proof (proj1 (keeps_eval_exec n) e s) as Hk.
  rewrite H in Hk. exact Hk.
Qed.

Lemma exec_sameFrame n st s r s' :
  exec stringify wallClock n st s = (r, s') -> sameFrame s s'.
Proof.
  intros H. pose proof (proj2 (keeps_eval_exec n) st s) as Hk.
  rewrite H in Hk. exact Hk.
Qed.

(** ** Expression statements *)

(** C8, as the code has it.  An expression statement whose expression
    evaluates to [v]: in REPL mode, unless the expression is itself an
    assignment to a variable (an Assign node) or a call, it writes
    [stringify v] and a newline to the output and changes nothing else, a
    property assignment (a Set node) included; in REPL mode with an
    assignment to a variable or a call, and outside REPL mode, it leaves
    the state as the evaluation left it, the output included. *)
Theorem expression_statement_prints_in_repl_only :
  forall n E v s s1,
    eval stringify wallClock n E s = (Ok v, s1) ->
    exec stringify wallClock (S n) (ExprStmt E) s
    = (Ok tt,
       if Interpreter.isREPL s && negb (isAssignOrCall E)
       then Interpreter.set_output
              (Interpreter.output s1 ++ stringify s1 v ++ newline) s1
       else s1).
Proof.
  intros n E v s s1 He. simpl. unfold VisitExprStmt.
  rewrite (bind_Ok _ _ _ _ _ He). unfold bind at 1, gets.
  destruct (eval_sameFrame _ _ _ _ _ He) as (_ & _ & _ & ->).
  destruct (Interpreter.isREPL s); [| reflexivity].
  destruct E; reflexivity.
Qed.

(** ** The value of an assignment *)

(** C10.  An Assign or a Set expression that completes without error has
    the value that was assigned: its value [v] is what the right-hand
    side evaluated to, and the expression has stored that very [v] under
    the name: for an Assign in the frame at the resolved distance or, for
    an unresolved name, in the nearest frame of the global chain that has
    the name; for a Set in the fields of the instance.  Nothing else has
    changed since the right-hand side was evaluated. *)
Theorem assignment_yields_the_value_it_stored :
  forall n e v s s',
    eval stringify wallClock (S n) e s = (Ok v, s') ->
    match e with
    | AssignExpr id Name Val =>
        exists s1 p frame,
          eval stringify wallClock n Val s = (Ok v, s1)
          /\ match Interpreter.locals s !! id with
             | Some d =>
                 ancestor (Interpreter.envs s1) (Interpreter.environment s)
                   (Z.to_nat d) = Some p
             | None =>
                 assignChain (length (Interpreter.envs s1))
                   (Interpreter.envs s1) (Interpreter.globals s) Name = Ok p
             end
          /\ Interpreter.envs s1 !! p = Some frame
          /\ s' = Interpreter.set_envs
                    (<[p := mkEnvironment (<[Lexeme Name := v]> (values frame))
                              (enclosing frame)]> (Interpreter.envs s1)) s1
          /\ exists frame',
               Interpreter.envs s' !! p = Some frame'
               /\ values frame' !! Lexeme Name = Some v
    | SetExpr Obj Name Val =>
        exists p s1 s2 i,
          eval stringify wallClock n Obj s = (Ok (VInstance p), s1)
          /\ eval stringify wallClock n Val s1 = (Ok v, s2)
          /\ Interpreter.instances s2 !! p = Some i
          /\ s' = Interpreter.set_instances
                    (<[p := mkInstance (klass i)
                              (<[Lexeme Name := v]> (fields i))]>
                       (Interpreter.instances s2)) s2
          /\ exists i',
               Interpreter.instances s' !! p = Some i'
               /\ fields i' !! Lexeme Name = Some v
    | _ => True
    end.
Proof.
  intros n e v s s' H. destruct e; try exact I; simpl in H.
  - unfold VisitAssignExpr in H.
    apply bind_inv_Ok in H as (val & s1 & Hval & H).
    destruct (eval_sameFrame _ _ _ _ _ Hval) as (Hg & He & Hl & _).
    unfold bind at 1, gets in H. rewrite Hl in H.
    assert (Hstored : forall p frame,
               Interpreter.envs s1 !! p = Some frame ->
               exists frame',
                 Interpreter.envs
                   (Interpreter.set_envs
                      (<[p := mkEnvironment
                                (<[Lexeme Name := val]> (values frame))
                                (enclosing frame)]> (Interpreter.envs s1)) s1)
                 !! p = Some frame'
                 /\ values frame' !! Lexeme Name = Some val).
    { intros p frame Hp. eexists. split.
      - simpl. apply list_lookup_insert_eq. eapply lookup_lt_Some. exact Hp.
      - simpl. apply lookup_insert_eq. }
    destruct (Interpreter.locals s !! id) as [d |].
    + unfold bind at 1, gets in H. rewrite He in H.
      apply bind_inv_Ok in H as (u & s4 & Hassign & Hret).
      injection Hret as <- <-.
      unfold assignAt in Hassign.
      apply bind_inv_Ok in Hassign as (p & s5 & Hp & Hwrite).
      unfold deref in Hp.
      destruct (ancestor (Interpreter.envs s1) (Interpreter.environment s)
                  (Z.to_nat d)) as [p0 |] eqn:Hanc; [| discriminate Hp].
      injection Hp as <- <-.
      unfold writeVar in Hwrite.
      destruct (Interpreter.envs s1 !! p0) as [frame |] eqn:Hframe;
        [| discriminate Hwrite].
      injection Hwrite; intros; subst s4.
      exists s1, p0, frame.
      split; [exact Hval | split; [exact Hanc | split; [exact Hframe |]]].
      split; [reflexivity | apply (Hstored p0 frame Hframe)].
    + unfold bind at 1, gets in H. rewrite Hg in H.
      apply bind_inv_Ok in H as (u & s4 & Hassign & Hret).
      injection Hret as <- <-.
      unfold assign in Hassign.
      apply bind_inv_Ok in Hassign as (p & s5 & Hp & Hwrite).
      destruct (assignChain (length (Interpreter.envs s1))
                  (Interpreter.envs s1) (Interpreter.globals s) Name)
        as [p0 | | |] eqn:Hchain; try discriminate Hp.
      injection Hp as <- <-.
      unfold writeVar in Hwrite.
      destruct (Interpreter.envs s1 !! p0) as [frame |] eqn:Hframe;
        [| discriminate Hwrite].
      injection Hwrite; intros; subst s4.
      exists s1, p0, frame.
      split; [exact Hval | split; [exact Hchain | split; [exact Hframe |]]].
      split; [reflexivity | apply (Hstored p0 frame Hframe)].
  - unfold VisitSetExpr in H.
    apply bind_inv_Ok in H as (obj & s1 & Hobj & H).
    destruct obj; try discriminate H.
    apply bind_inv_Ok in H as (val & s2 & Hval & H).
    apply bind_inv_Ok in H as (u & s3 & Hset & Hret).
    injection Hret as <- <-.
    unfold instanceSet in Hset.
    destruct (Interpreter.instances s2 !! p) as [i |] eqn:Hi;
      [| discriminate Hset].
    injection Hset; intros; subst s3.
    exists p, s1, s2, i.
    split; [exact Hobj | split; [exact Hval | split; [exact Hi |]]].
    split; [reflexivity |].
    eexists. split.
    + simpl. apply list_lookup_insert_eq. eapply lookup_lt_Some. exact Hi.
    + simpl. apply lookup_insert_eq.
Qed.

(** ** Blocks *)

(** C2.  Whatever the statements and the environment given to
    [execBlock], and whichever way it ends (normally, with a runtime error
    or with a return signal, which are the results [r] can be besides a
    panic and running out of fuel), the interpreter's current environment
    afterwards is the one that was current before. *)
Theorem execBlock_restores_environment :
  forall n statements env s r s',
    execBlock (exec stringify wallClock n) statements env s = (r, s') ->
    Interpreter.environment s' = Interpreter.environment s.
Proof.
  intros n statements env s r s'. unfold execBlock.
  destruct (execStmts (exec stringify wallClock n) statements
              (Interpreter.set_environment env s)) as [r1 s1].
  intros H. injection H as _ <-. reflexivity.
Qed.

End Properties.

(** ** The reporter *)

Lemma SimpleReporter_Reset_flags (reporter : SimpleReporter.t) :
  SimpleReporter.HadError (SimpleReporter.Reset reporter) = false
  /\ SimpleReporter.HadRuntimeError (SimpleReporter.Reset reporter)
     = SimpleReporter.HadRuntimeError reporter.
Proof. split; reflexivity. Qed.

(** C6, on reporter.go.  After a runtime error has been reported, [Reset]
    clears the flag of the static errors only: [HadRuntimeError] still
    answers true. *)
Theorem Reset_leaves_runtime_error_flag :
  let reporter :=
    SimpleReporter.Reset
      (SimpleReporter.Report (RuntimeError "Operands must be numbers.")
         (SimpleReporter.NewSimpleReporter "")) in
  SimpleReporter.HadError reporter = false
  /\ SimpleReporter.HadRuntimeError reporter = true.
Proof. split; reflexivity. Qed.

(** The other version of the reporter clears both flags. *)
Lemma SimpleReporter2_Reset_flags (reporter : SimpleReporter2.t) :
  SimpleReporter2.HadError (SimpleReporter2.Reset reporter) = false
  /\ SimpleReporter2.HadRuntimeError (SimpleReporter2.Reset reporter) = false.
Proof. split; reflexivity. Qed.

(** ** Exit codes *)

Lemma Report_fold_flags errs reporter :
  let reporter' :=
    fold_left (fun r e => SimpleReporter.Report e r) errs reporter in
  SimpleReporter.hadErr reporter'
  = SimpleReporter.hadErr reporter || existsb isStaticErr errs
  /\ SimpleReporter.hadRuntimeErr reporter'
     = SimpleReporter.hadRuntimeErr reporter || existsb isRuntimeErr errs.
Proof.
  revert reporter. induction errs as [| e errs IH]; intros reporter; simpl.
  - rewrite !orb_false_r. split; reflexivity.
  - destruct (IH (SimpleReporter.Report e reporter)) as [-> ->].
    unfold SimpleReporter.Report, isStaticErr.
    destruct (isRuntimeErr e); simpl; split;
      rewrite ?orb_true_r, ?orb_assoc; reflexivity.
Qed.

Lemma Print_fold_flags toks reporter :
  let reporter' :=
    fold_left (fun r tok => Print (tok ++ newline) r) toks reporter in
  SimpleReporter.hadErr reporter' = SimpleReporter.hadErr reporter
  /\ SimpleReporter.hadRuntimeErr reporter'
     = SimpleReporter.hadRuntimeErr reporter.
Proof.
  revert reporter. induction toks as [| tok toks IH]; intros reporter; simpl.
  - split; reflexivity.
  - destruct (IH (Print (tok ++ newline) reporter)) as [-> ->].
    split; reflexivity.
Qed.

Lemma run_hadErr h script reporter :
  SimpleReporter.hadErr (run h script reporter)
  = SimpleReporter.hadErr reporter
    || existsb isStaticErr (fst (scan h script)).
Proof.
  unfold run. destruct (scan h script) as [errs toks]. simpl.
  rewrite (proj1 (Print_fold_flags toks _)).
  apply (proj1 (Report_fold_flags errs reporter)).
Qed.






(** * The properties at sample inputs *)

(** [clock(1)] fails on the arity, [nil(1)] on the callee; the argument
    has been evaluated in both. *)
Lemma call_checks_at_clock_and_nil :
  (sample_eval 1 (VarExpr 1 (Sample.ident "clock")) Sample.script
   = (Ok VClock, Sample.script)
   /\ argsInOrder (sample_eval 1) [Sample.number 1] Sample.script
        [VNumber 1] Sample.script
   /\ sample_eval 2 Sample.clockOfOne Sample.script
      = (Err (runtimeError Sample.paren "Expected 0 arguments but got 1."),
         Sample.script))
  /\ (sample_eval 1 (LiteralExpr VNil) Sample.script
      = (Ok VNil, Sample.script)
      /\ sample_eval 2 Sample.nilOfOne Sample.script
         = (Err (runtimeError Sample.paren
                   "Can only call functions and classes."),
            Sample.script)).
Proof.
  assert (Hargs : argsInOrder (sample_eval 1) [Sample.number 1]
                    Sample.script [VNumber 1] Sample.script).
  { econstructor; [reflexivity | constructor]. }
  split.
  - split; [reflexivity | split; [exact Hargs |]].
    pose proof (call_checks_callable_then_arity stringifySample clockSample
                  1 (VarExpr 1 (Sample.ident "clock")) Sample.paren
                  [Sample.number 1] VClock [VNumber 1]
                  Sample.script Sample.script Sample.script
                  eq_refl Hargs) as (_ & Harity & _).
    apply (Harity CClock 0 eq_refl eq_refl). discriminate.
  - split; [reflexivity |].
    pose proof (call_checks_callable_then_arity stringifySample clockSample
                  1 (LiteralExpr VNil) Sample.paren
                  [Sample.number 1] VNil [VNumber 1]
                  Sample.script Sample.script Sample.script
                  eq_refl Hargs) as (Hcallee & _).
    apply Hcallee. reflexivity.
Defined.

(** A block that ends normally, one that raises a runtime error and one
    that returns: each leaves the environment that was current. *)
Lemma execBlock_restores_at_three_exits :
  let run statements :=
    execBlock (sample_exec 5) statements 1 Sample.withChild in
  (fst (run Sample.blockNormal) = Ok tt
   /\ Interpreter.environment (snd (run Sample.blockNormal))
      = Interpreter.environment Sample.withChild)
  /\ (fst (run Sample.blockError)
      = Err (runtimeError Sample.paren "Can only call functions and classes.")
      /\ Interpreter.environment (snd (run Sample.blockError))
         = Interpreter.environment Sample.withChild)
  /\ (fst (run Sample.blockReturn) = Err (callReturn (VNumber 1))
      /\ Interpreter.environment (snd (run Sample.blockReturn))
         = Interpreter.environment Sample.withChild).
Proof.
  intros run.
  assert (Hrestores : forall statements,
             Interpreter.environment (snd (run statements))
             = Interpreter.environment Sample.withChild).
  { intros statements.
    apply (execBlock_restores_environment stringifySample clockSample 5
             statements 1 Sample.withChild (fst (run statements))).
    apply surjective_pairing. }
  split; [| split]; (split; [vm_compute; reflexivity | apply Hrestores]).
Defined.

(** [1 == "1"] is false and [1 != "1"] is true. *)
Lemma equality_at_one_and_text :
  sample_eval 1 (Sample.number 1) Sample.script = (Ok (VNumber 1), Sample.script)
  /\ sample_eval 1 (Sample.text "1") Sample.script
     = (Ok (VString "1"), Sample.script)
  /\ sample_eval 2
       (BinaryExpr (Sample.number 1) Sample.equalEqual (Sample.text "1"))
       Sample.script
     = (Ok (VBool false), Sample.script)
  /\ sample_eval 2
       (BinaryExpr (Sample.number 1) Sample.bangEqual (Sample.text "1"))
       Sample.script
     = (Ok (VBool true), Sample.script).
Proof.
  split; [reflexivity | split; [reflexivity |]].
  pose proof (equality_is_total_and_negated_by_bang_equal
                stringifySample clockSample 1
                (Sample.number 1) (Sample.text "1")
                Sample.equalEqual Sample.bangEqual
                (VNumber 1) (VString "1")
                Sample.script Sample.script Sample.script
                eq_refl eq_refl eq_refl eq_refl) as (Heq & Hne & _).
  split; [exact Heq | exact Hne].
Defined.

(** C3, as the specification has it, fails on numbers: [0/0] evaluates
    to one and the same number on both sides, and [0/0 == 0/0] is false;
    so equality of numbers is not the identity of their values. *)
Lemma equality_of_numbers_is_not_structural :
  (exists x,
     sample_eval 2 Sample.zeroOverZero Sample.script
     = (Ok (VNumber x), Sample.script)
     /\ sample_eval 3
          (BinaryExpr Sample.zeroOverZero Sample.equalEqual
             Sample.zeroOverZero) Sample.script
        = (Ok (VBool false), Sample.script))
  /\ ~ (forall a b, interfaceEq a b = true <-> a = b).
Proof.
  split.
  - exists (0 / 0)%float. split; reflexivity.
  - intros H.
    assert (Hnan : interfaceEq (VNumber (0 / 0)) (VNumber (0 / 0)) = true)
      by (apply H; reflexivity).
    discriminate Hnan.
Defined.

(** [1 + 2] is 3, ["a" + "b"] is ["ab"], and [1 + "b"] is an error. *)
Lemma plus_at_numbers_strings_and_mixed :
  Type_ Sample.plus = PLUS
  /\ sample_eval 2
       (BinaryExpr (Sample.number 1) Sample.plus (Sample.number 2))
       Sample.script
     = (Ok (VNumber 3), Sample.script)
  /\ sample_eval 2
       (BinaryExpr (Sample.text "a") Sample.plus (Sample.text "b"))
       Sample.script
     = (Ok (VString "ab"), Sample.script)
  /\ sample_eval 2
       (BinaryExpr (Sample.number 1) Sample.plus (Sample.text "b"))
       Sample.script
     = (Err (runtimeError Sample.plus
               "Operands must be two numbers or two strings."),
        Sample.script).
Proof.
  split; [reflexivity |]. split; [| split].
  - exact (plus_adds_numbers_or_concatenates_strings
             stringifySample clockSample 1
             (Sample.number 1) Sample.plus (Sample.number 2)
             (VNumber 1) (VNumber 2) Sample.script Sample.script Sample.script
             eq_refl eq_refl eq_refl).
  - exact (plus_adds_numbers_or_concatenates_strings
             stringifySample clockSample 1
             (Sample.text "a") Sample.plus (Sample.text "b")
             (VString "a") (VString "b")
             Sample.script Sample.script Sample.script
             eq_refl eq_refl eq_refl).
  - exact (plus_adds_numbers_or_concatenates_strings
             stringifySample clockSample 1
             (Sample.number 1) Sample.plus (Sample.text "b")
             (VNumber 1) (VString "b")
             Sample.script Sample.script Sample.script
             eq_refl eq_refl eq_refl).
Defined.

(** ["a" or nil(1)] is ["a"] and [nil and nil(1)] is nil: the call, which
    would fail, is not evaluated. *)
Lemma logical_short_circuit_at_failing_right_operand :
  sample_eval 1 (Sample.text "a") Sample.script
  = (Ok (VString "a"), Sample.script)
  /\ sample_eval 2
       (LogicalExpr (Sample.text "a") Sample.or Sample.nilOfOne)
       Sample.script
     = (Ok (VString "a"), Sample.script)
  /\ sample_eval 2
       (LogicalExpr (LiteralExpr VNil) Sample.and Sample.nilOfOne)
       Sample.script
     = (Ok VNil, Sample.script).
Proof.
  split; [reflexivity |]. split.
  - pose proof (logical_short_circuit stringifySample clockSample 1
                  (Sample.text "a") Sample.or Sample.nilOfOne (VString "a")
                  Sample.script Sample.script eq_refl) as (Hor & _).
    apply Hor; reflexivity.
  - pose proof (logical_short_circuit stringifySample clockSample 1
                  (LiteralExpr VNil) Sample.and Sample.nilOfOne VNil
                  Sample.script Sample.script eq_refl) as (_ & _ & Hand & _).
    apply Hand; reflexivity.
Defined.

(** In the REPL [1] prints [1] and [a = 7] prints nothing; in a script
    [1] prints nothing. *)
Lemma expression_statement_at_repl_and_script :
  sample_eval 1 (Sample.number 1) Sample.repl
  = (Ok (VNumber 1), Sample.repl)
  /\ Interpreter.output
       (snd (sample_exec 2 (ExprStmt (Sample.number 1)) Sample.repl))
     = "1" ++ newline
  /\ Interpreter.output
       (snd (sample_exec 3 (ExprStmt Sample.assignA) Sample.withA))
     = ""
  /\ Interpreter.output
       (snd (sample_exec 2 (ExprStmt (Sample.number 1)) Sample.script))
     = "".
Proof.
  split; [reflexivity |]. split; [| split].
  - rewrite (expression_statement_prints_in_repl_only
               stringifySample clockSample 1 (Sample.number 1) (VNumber 1)
               Sample.repl Sample.repl eq_refl).
    reflexivity.
  - rewrite (expression_statement_prints_in_repl_only
               stringifySample clockSample 2 Sample.assignA (VNumber 7)
               Sample.withA (snd (sample_eval 2 Sample.assignA Sample.withA))
               eq_refl).
    reflexivity.
  - rewrite (expression_statement_prints_in_repl_only
               stringifySample clockSample 1 (Sample.number 1) (VNumber 1)
               Sample.script Sample.script eq_refl).
    reflexivity.
Defined.

(** [1.x = 3] fails; [p.x = 3], with [p] an instance without fields,
    gives [p] the field [x] with the value 3. *)
Lemma set_at_number_and_instance :
  sample_eval 1 (Sample.number 1) Sample.script
  = (Ok (VNumber 1), Sample.script)
  /\ sample_eval 2 Sample.setOneX Sample.script
     = (Err (runtimeError (Sample.ident "x") "Only instances have fields."),
        Sample.script)
  /\ sample_eval 1 (VarExpr 2 (Sample.ident "p")) Sample.withPoint
     = (Ok (VInstance 0), Sample.withPoint)
  /\ Interpreter.instances Sample.withPoint !! 0 = Some (mkInstance 0 ∅)
  /\ exists s3 i',
       sample_eval 2 Sample.setPointX Sample.withPoint = (Ok (VNumber 3), s3)
       /\ Interpreter.instances s3 !! 0 = Some i'
       /\ fields i' !! "x" = Some (VNumber 3).
Proof.
  split; [reflexivity |]. split.
  - pose proof (set_requires_instance_then_writes stringifySample clockSample
                  1 (Sample.number 1) (Sample.ident "x") (Sample.number 3)
                  (VNumber 1) Sample.script Sample.script eq_refl)
      as (Hfail & _).
    apply Hfail. discriminate.
  - assert (Hobj : sample_eval 1 (VarExpr 2 (Sample.ident "p")) Sample.withPoint
                   = (Ok (VInstance 0), Sample.withPoint))
      by (vm_compute; reflexivity).
    assert (Hinst : Interpreter.instances Sample.withPoint !! 0
                    = Some (mkInstance 0 ∅))
      by (vm_compute; reflexivity).
    split; [exact Hobj | split; [exact Hinst |]].
    pose proof (set_requires_instance_then_writes stringifySample clockSample
                  1 (VarExpr 2 (Sample.ident "p")) (Sample.ident "x")
                  (Sample.number 3) (VInstance 0)
                  Sample.withPoint Sample.withPoint Hobj)
      as (_ & Hwrite).
    destruct (Hwrite 0 (VNumber 3) Sample.withPoint (mkInstance 0 ∅)
                eq_refl eq_refl Hinst)
      as (s3 & i' & Hrun & _ & Hi' & _ & Hfield & _).
    exists s3, i'. split; [exact Hrun | split; [exact Hi' | exact Hfield]].
Defined.

(** * Further properties of the interpreter *)

(** ** What every update respects

    Evaluation changes the state only by the updates of
    [closedUnderUpdates]: a relation closed under them holds between the
    state before and the state after every expression and statement. *)

Section Respects.

Variable stringify : Interpreter.t -> Value -> string.
Variable wallClock : nat -> float.
Variable R : Interpreter.t -> Interpreter.t -> Prop.
Hypothesis closed : closedUnderUpdates R.

Lemma respects_ret {A} (a : A) : respects R (ret a).
Proof. intros s. apply closed. Qed.

Lemma respects_fail {A} e : respects R (@fail A e).
Proof. intros s. apply closed. Qed.

Lemma respects_panic {A} msg : respects R (@panic A msg).
Proof. intros s. apply closed. Qed.

Lemma respects_timeout {A} : respects R (@timeout A).
Proof. intros s. apply closed. Qed.

Lemma respects_gets {A} (f : Interpreter.t -> A) : respects R (gets f).
Proof. intros s. apply closed. Qed.

Lemma respects_deref {A} (f : Interpreter.t -> option A) :
  respects R (deref f).
Proof. intros s. unfold deref. destruct (f s); apply closed. Qed.

Lemma respects_bind {A B} (m : M A) (k : A -> M B) :
  respects R m -> (forall a, respects R (k a)) -> respects R (bind m k).
Proof.
  intros Hm Hk s. unfold bind. specialize (Hm s).
  destruct (m s) as [[a | e | msg |] s1]; simpl in *; try exact Hm.
  eapply (closed_trans R closed); [exact Hm | apply Hk].
Qed.

Lemma respects_set_environment env :
  respects R (modify (Interpreter.set_environment env)).
Proof. intros s. apply closed. Qed.

Lemma respects_newEnvironment parent : respects R (newEnvironment parent).
Proof. intros s. apply closed. Qed.

Lemma respects_writeVar env key v : respects R (writeVar env key v).
Proof.
  intros s. unfold writeVar.
  destruct (Interpreter.envs s !! env) eqn:He; simpl.
  - apply (closed_envs_write R closed). exact He.
  - apply closed.
Qed.

Lemma respects_newFunction decl env isInit :
  respects R (newFunction decl env isInit).
Proof. intros s. apply closed. Qed.

Lemma respects_newClass nm super ms : respects R (newClass nm super ms).
Proof. intros s. apply closed. Qed.

Lemma respects_newInstance cls : respects R (newInstance cls).
Proof. intros s. apply closed. Qed.

Lemma respects_instanceSet inst key v : respects R (instanceSet inst key v).
Proof.
  intros s. unfold instanceSet.
  destruct (Interpreter.instances s !! inst) eqn:Hi; simpl.
  - apply (closed_instances_write R closed). exact Hi.
  - apply closed.
Qed.

Lemma respects_get env key : respects R (get env key).
Proof. intros s. apply closed. Qed.

Lemma respects_Fprintln text : respects R (Fprintln text).
Proof. intros s. apply (closed_output R closed). Qed.

Lemma respects_clockCall : respects R (clockCall wallClock).
Proof. intros s. apply closed. Qed.

Create HintDb respects.
#[local] Hint Resolve respects_ret respects_fail respects_panic
  respects_timeout respects_gets respects_deref respects_set_environment
  respects_newEnvironment respects_writeVar respects_newFunction
  respects_newClass respects_newInstance respects_instanceSet respects_get
  respects_Fprintln respects_clockCall : respects.

Ltac respects_step :=
  match goal with
  | |- respects _ (bind _ _) => apply respects_bind; [| intros ?]
  | |- respects _ (match ?x with _ => _ end) => destruct x
  | |- respects _ (if ?b then _ else _) => destruct b
  | |- respects _ _ => solve [eauto with respects]
  end.
Ltac respects_auto := repeat respects_step.

Lemma respects_define env key v : respects R (define env key v).
Proof. apply respects_writeVar. Qed.

Lemma respects_getAt env distance key : respects R (getAt env distance key).
Proof. apply respects_deref. Qed.

Lemma respects_assignAt env distance key v :
  respects R (assignAt env distance key v).
Proof. unfold assignAt. respects_auto. Qed.

Lemma respects_assign env key v : respects R (assign env key v).
Proof.
  unfold assign. apply respects_bind; [| intros p; apply respects_writeVar].
  intros s. apply closed.
Qed.

#[local] Hint Resolve respects_define respects_getAt respects_assignAt
  respects_assign : respects.

Lemma respects_functionBind fn inst : respects R (functionBind fn inst).
Proof. unfold functionBind. respects_auto. Qed.

#[local] Hint Resolve respects_functionBind : respects.

Lemma respects_instanceGet inst key : respects R (instanceGet inst key).
Proof. unfold instanceGet. respects_auto. Qed.

Lemma respects_printValue v : respects R (printValue stringify v).
Proof. unfold printValue. respects_auto. Qed.

Lemma respects_binaryOp Op lhs rhs : respects R (binaryOp Op lhs rhs).
Proof. unfold binaryOp. respects_auto. Qed.

Lemma respects_lookUpVar key id : respects R (lookUpVar key id).
Proof. unfold lookUpVar. respects_auto. Qed.

Lemma respects_buildMethods Methods ms :
  respects R (buildMethods Methods ms).
Proof.
  revert ms. induction Methods as [| method rest IH]; intros ms; simpl;
    respects_auto.
Qed.

#[local] Hint Resolve respects_instanceGet respects_printValue
  respects_binaryOp respects_lookUpVar respects_buildMethods : respects.

Section RespectsHandlers.

Variable ev : Expr -> M Value.
Variable ex : Stmt -> M unit.
Hypothesis respects_ev : forall e, respects R (ev e).
Hypothesis respects_ex : forall st, respects R (ex st).

#[local] Hint Resolve respects_ev respects_ex : respects.

Lemma respects_execStmts statements : respects R (execStmts ex statements).
Proof. induction statements; simpl; respects_auto. Qed.

Lemma respects_execBlock statements env :
  respects R (execBlock ex statements env).
Proof.
  intros s. unfold execBlock.
  pose proof (respects_execStmts statements
                (Interpreter.set_environment env s)) as Hs.
  destruct (execStmts ex statements (Interpreter.set_environment env s))
    as [r s1].
  simpl in *.
  eapply (closed_trans R closed); [apply (closed_environment R closed) |].
  eapply (closed_trans R closed); [exact Hs |].
  apply (closed_environment R closed).
Qed.

Lemma respects_defineParams env params args :
  respects R (defineParams env params args).
Proof.
  revert args. induction params as [| param params IH]; intros args;
    simpl; [apply respects_ret |].
  destruct args; respects_auto.
Qed.

#[local] Hint Resolve respects_execStmts respects_execBlock
  respects_defineParams : respects.

Lemma respects_functionCall fn args : respects R (functionCall ex fn args).
Proof.
  unfold functionCall. respects_auto. intros s.
  pose proof (respects_execBlock (fnBody (declaration a)) a0 s) as Hb.
  destruct (execBlock ex (fnBody (declaration a)) a0 s) as [r s1].
  simpl in Hb.
  assert (Hthis : R s (snd (getAt (closure a) 0 "this" s1))).
  { eapply (closed_trans R closed); [exact Hb | apply respects_getAt]. }
  destruct r as [u | [tk msg | v] | msg |]; try exact Hb;
    destruct (isInitializer a); assumption.
Qed.

#[local] Hint Resolve respects_functionCall : respects.

Lemma respects_classCall cls args : respects R (classCall ex cls args).
Proof. unfold classCall. respects_auto. Qed.

#[local] Hint Resolve respects_classCall : respects.

Lemma respects_call c args : respects R (call wallClock ex c args).
Proof. unfold call. respects_auto. Qed.

Lemma respects_evalArgs Args args : respects R (evalArgs ev Args args).
Proof.
  revert args. induction Args as [| arg rest IH]; intros args; simpl;
    respects_auto.
Qed.

#[local] Hint Resolve respects_call respects_evalArgs : respects.

Lemma respects_VisitWhileStmt rounds Cond Body :
  respects R (VisitWhileStmt ev ex rounds Cond Body).
Proof. induction rounds; simpl; respects_auto. Qed.

Lemma respects_visitors :
  (forall id Name Val, respects R (VisitAssignExpr ev id Name Val))
  /\ (forall Lhs Op Rhs, respects R (VisitBinaryExpr ev Lhs Op Rhs))
  /\ (forall Callee Paren Args,
        respects R (VisitCallExpr wallClock ev ex Callee Paren Args))
  /\ (forall Obj Name, respects R (VisitGetExpr ev Obj Name))
  /\ (forall Lhs Op Rhs, respects R (VisitLogicalExpr ev Lhs Op Rhs))
  /\ (forall Obj Name Val, respects R (VisitSetExpr ev Obj Name Val))
  /\ (forall id Keyword Method,
        respects R (VisitSuperExpr id Keyword Method))
  /\ (forall Op Inner, respects R (VisitUnaryExpr ev Op Inner))
  /\ (forall Stmts, respects R (VisitBlockStmt ex Stmts))
  /\ (forall Name Super Methods,
        respects R (VisitClassStmt ev Name Super Methods))
  /\ (forall E, respects R (VisitExprStmt stringify ev E))
  /\ (forall decl, respects R (VisitFunctionStmt decl))
  /\ (forall Cond ThenBranch ElseBranch,
        respects R (VisitIfStmt ev ex Cond ThenBranch ElseBranch))
  /\ (forall E, respects R (VisitPrintStmt stringify ev E))
  /\ (forall Keyword Val, respects R (VisitReturnStmt ev Keyword Val))
  /\ (forall Name Init, respects R (VisitVarStmt ev Name Init)).
Proof.
  repeat split; intros;
    unfold VisitAssignExpr, VisitBinaryExpr, VisitCallExpr, VisitGetExpr,
      VisitLogicalExpr, VisitSetExpr, VisitSuperExpr, VisitUnaryExpr,
      VisitBlockStmt, VisitClassStmt, VisitExprStmt, VisitFunctionStmt,
      VisitIfStmt, VisitPrintStmt, VisitReturnStmt, VisitVarStmt;
    respects_auto.
Qed.

End RespectsHandlers.

Lemma respects_eval_exec n :
  (forall e, respects R (eval stringify wallClock n e))
  /\ (forall st, respects R (exec stringify wallClock n st)).
Proof.
  induction n as [| n [IHe IHx]]; split.
  - intros e. apply respects_timeout.
  - intros st. apply respects_timeout.
  - destruct (respects_visitors _ _ IHe IHx)
      as (H1 & H2 & H3 & H4 & H5 & H6 & H7 & H8 & _).
    intros []; simpl; auto using respects_ret.
    + apply IHe.
    + apply respects_lookUpVar.
    + apply respects_lookUpVar.
  - destruct (respects_visitors _ _ IHe IHx)
      as (_ & _ & _ & _ & _ & _ & _ & _ & H9 & H10 & H11 & H12 & H13 & H14
          & H15 & H16).
    intros []; simpl; auto using respects_VisitWhileStmt.
Qed.

End Respects.

Lemma append_nil_r (text : string) : text ++ "" = text.
Proof.
  induction text as [| c text IH]; [reflexivity |].
  change (String c (text ++ "") = String c text). f_equal. exact IH.
Qed.

Lemma append_assoc (a b c : string) : (a ++ b) ++ c = a ++ b ++ c.
Proof.
  induction a as [| ch a IH]; [reflexivity |].
  change (String ch ((a ++ b) ++ c) = String ch (a ++ b ++ c)).
  f_equal. exact IH.
Qed.

Lemma outputGrows_same s s' :
  Interpreter.output s' = Interpreter.output s -> outputGrows s s'.
Proof. intros H. exists "". rewrite append_nil_r. exact H. Qed.

Lemma outputGrows_closed : closedUnderUpdates outputGrows.
Proof.
  split; intros; try (apply outputGrows_same; reflexivity).
  - destruct H as [x Hx], H0 as [y Hy]. exists (x ++ y).
    rewrite Hy, Hx. apply append_assoc.
  - exists text. reflexivity.
Qed.

Lemma objectsStay_same s s' :
  Interpreter.functions s' = Interpreter.functions s ->
  Interpreter.classes s' = Interpreter.classes s ->
  Interpreter.instances s' = Interpreter.instances s ->
  Interpreter.envs s' = Interpreter.envs s ->
  objectsStay s s'.
Proof.
  intros Hf Hc Hi He. unfold objectsStay. rewrite Hf, Hc, Hi, He.
  repeat split; try reflexivity; eauto.
Qed.

Lemma objectsStay_closed : closedUnderUpdates objectsStay.
Proof.
  split; intros; try (apply objectsStay_same; reflexivity).
  - destruct H as (Hf & Hc & Hi & He), H0 as (Hf' & Hc' & Hi' & He').
    repeat split.
    + etrans; eassumption.
    + etrans; eassumption.
    + intros p i Hp. destruct (Hi p i Hp) as (i1 & Hp1 & Hk1).
      destruct (Hi' p i1 Hp1) as (i2 & Hp2 & Hk2).
      exists i2. split; [exact Hp2 | congruence].
    + intros p e Hp. destruct (He p e Hp) as (e1 & Hp1 & Hk1).
      destruct (He' p e1 Hp1) as (e2 & Hp2 & Hk2).
      exists e2. split; [exact Hp2 | congruence].
  - repeat split; simpl; try reflexivity; eauto.
    intros p e Hp. exists e. split; [| reflexivity].
    apply lookup_app_l_Some. exact Hp.
  - repeat split; simpl; try reflexivity; eauto.
    intros q e0 Hq. destruct (decide (p = q)) as [<- | Hne].
    + eexists. split.
      * apply list_lookup_insert_eq. eapply lookup_lt_Some. exact H.
      * simpl. congruence.
    + exists e0. split; [| reflexivity].
      rewrite list_lookup_insert_ne by exact Hne. exact Hq.
  - repeat split; simpl; try reflexivity; eauto.
    apply prefix_app_r. reflexivity.
  - repeat split; simpl; try reflexivity; eauto.
    apply prefix_app_r. reflexivity.
  - repeat split; simpl; try reflexivity; eauto.
    intros p i Hp. exists i. split; [| reflexivity].
    apply lookup_app_l_Some. exact Hp.
  - repeat split; simpl; try reflexivity; eauto.
    intros q i0 Hq. destruct (decide (p = q)) as [<- | Hne].
    + eexists. split.
      * apply list_lookup_insert_eq. eapply lookup_lt_Some. exact H.
      * simpl. congruence.
    + exists i0. split; [| reflexivity].
      rewrite list_lookup_insert_ne by exact Hne. exact Hq.
Qed.

(** X1.  However an expression or a statement ends (with a value, a
    runtime error, a return signal, a panic or out of fuel), it leaves
    [in.environment], [in.globals], [in.locals] and [in.isREPL] as they
    were: the class statement undoes its push of the [super] environment
    and every block and call its own. *)
Theorem evaluation_leaves_the_frame :
  forall stringify wallClock n,
    (forall e s, sameFrame s (snd (eval stringify wallClock n e s)))
    /\ (forall st s, sameFrame s (snd (exec stringify wallClock n st s))).
Proof.
  intros stringify wallClock n.
  destruct (keeps_eval_exec stringify wallClock n) as [He Hx].
  split; intros; [apply He | apply Hx].
Qed.

(** X2.  The interpreter only appends to its output: after any
    expression or statement, however it ends, what had been written is
    still there, in front of what has been written since. *)
Theorem output_is_only_appended_to :
  forall stringify wallClock n,
    (forall e s, outputGrows s (snd (eval stringify wallClock n e s)))
    /\ (forall st s, outputGrows s (snd (exec stringify wallClock n st s))).
Proof.
  intros stringify wallClock n.
  destruct (respects_eval_exec stringify wallClock outputGrows
              outputGrows_closed n) as [He Hx].
  split; intros; [apply He | apply Hx].
Qed.

(** X3.  Evaluation never drops or replaces an object: after any
    expression or statement the functions and classes that existed are
    unchanged, every instance still exists with the class it was made
    from, and every environment still exists with the parent it had. *)
Theorem objects_stay_what_they_are :
  forall stringify wallClock n,
    (forall e s, objectsStay s (snd (eval stringify wallClock n e s)))
    /\ (forall st s, objectsStay s (snd (exec stringify wallClock n st s))).
Proof.
  intros stringify wallClock n.
  destruct (respects_eval_exec stringify wallClock objectsStay
              objectsStay_closed n) as [He Hx].
  split; intros; [apply He | apply Hx].
Qed.

(** ** Running a program *)

Lemma execStmts_cons_Ok ex stmt rest s s' :
  execStmts ex (stmt :: rest) s = (Ok tt, s') ->
  exists s1, ex stmt s = (Ok tt, s1) /\ execStmts ex rest s1 = (Ok tt, s').
Proof.
  simpl. intros H. apply bind_inv_Ok in H as ([] & s1 & H1 & H2).
  exists s1. split; assumption.
Qed.

Lemma Interpret_first_error {R} `{Reporter R}
  stringify wallClock errorString n before st after e s s1 s2
  (reporter : R) :
  execStmts (exec stringify wallClock n) before s = (Ok tt, s1) ->
  exec stringify wallClock n st s1 = (Err e, s2) ->
  Interpret stringify wallClock errorString n (before ++ st :: after)
    s reporter
  = (Ok tt, s2, Report (asGoError errorString e) reporter).
Proof.
  revert s. induction before as [| b before IH]; intros s Hb Hst.
  - injection Hb as <-. simpl. rewrite Hst. reflexivity.
  - apply execStmts_cons_Ok in Hb as (s0 & Hb0 & Hb).
    simpl. rewrite Hb0. apply IH; assumption.
Qed.

(** X4.  [Interpret] stops at the first statement that returns an error:
    the statements before it have run, the error is reported once, the
    statements after it are not executed, and [Interpret] returns. *)
Theorem Interpret_stops_at_the_first_error :
  forall R (reporterOps : Reporter R) stringify wallClock errorString n
         before st after e s s1 s2 (reporter : R),
    execStmts (exec stringify wallClock n) before s = (Ok tt, s1) ->
    exec stringify wallClock n st s1 = (Err e, s2) ->
    Interpret stringify wallClock errorString n (before ++ st :: after)
      s reporter
    = (Ok tt, s2, Report (asGoError errorString e) reporter).
Proof. intros. eapply Interpret_first_error; eassumption. Qed.

(** X5.  When every statement succeeds, [Interpret] runs them all and
    reports nothing: the reporter is as it was. *)
Theorem Interpret_reports_nothing_on_success :
  forall R (reporterOps : Reporter R) stringify wallClock errorString n
         statements s s' (reporter : R),
    execStmts (exec stringify wallClock n) statements s = (Ok tt, s') ->
    Interpret stringify wallClock errorString n statements s reporter
    = (Ok tt, s', reporter).
Proof.
  intros R reporterOps stringify wallClock errorString n statements.
  induction statements as [| st rest IH]; intros s s' reporter H.
  - injection H as <-. reflexivity.
  - apply execStmts_cons_Ok in H as (s0 & H0 & H).
    simpl. rewrite H0. apply IH. exact H.
Qed.

(** X6.  With either reporter, a runtime error that ends [Interpret]
    raises the runtime-error flag and leaves the other flag alone; a
    return signal that reaches [Interpret] is reported as an error that is
    not a runtime error. *)
Theorem Interpret_raises_the_flag_of_the_error :
  forall stringify wallClock errorString n before st after e s s1 s2,
    execStmts (exec stringify wallClock n) before s = (Ok tt, s1) ->
    exec stringify wallClock n st s1 = (Err e, s2) ->
    (forall reporter : SimpleReporter.t,
       let reporter' :=
         snd (Interpret stringify wallClock errorString n
                (before ++ st :: after) s reporter) in
       HadRuntimeError reporter'
       = isRuntimeError e || HadRuntimeError reporter
       /\ HadError reporter'
          = negb (isRuntimeError e) || HadError reporter)
    /\ (forall reporter : SimpleReporter2.t,
          let reporter' :=
            snd (Interpret stringify wallClock errorString n
                   (before ++ st :: after) s reporter) in
          HadRuntimeError reporter'
          = isRuntimeError e || HadRuntimeError reporter
          /\ HadError reporter'
             = negb (isRuntimeError e) || HadError reporter).
Proof.
  intros stringify wallClock errorString n before st after e s s1 s2 Hb Hst.
  split; intros reporter reporter'; subst reporter';
    rewrite (Interpret_first_error _ _ _ _ _ _ after _ _ _ _ reporter Hb Hst);
    destruct e; split; reflexivity.
Qed.

Lemma Interpret_sameFrame {R} `{Reporter R}
  stringify wallClock errorString n statements :
  forall s (reporter : R),
    sameFrame s
      (snd (fst (Interpret stringify wallClock errorString n statements
                   s reporter))).
Proof.
  induction statements as [| st rest IH]; intros s reporter; simpl.
  - apply sameFrame_refl.
  - pose proof (proj2 (keeps_eval_exec stringify wallClock n) st s) as Hst.
    destruct (exec stringify wallClock n st s) as [[u | e | msg |] s1];
      simpl in *; try exact Hst.
    eapply sameFrame_trans; [exact Hst | apply IH].
Qed.

(** X7.  However [Interpret] ends, also after an error raised inside
    nested blocks and calls, the interpreter's current environment, its
    globals, its resolution table and its mode are what they were, so
    the next run starts in the same scope. *)
Theorem Interpret_leaves_the_frame :
  forall R (reporterOps : Reporter R) stringify wallClock errorString n
         statements s (reporter : R),
    sameFrame s
      (snd (fst (Interpret stringify wallClock errorString n statements
                   s reporter))).
Proof. intros. apply Interpret_sameFrame. Qed.

(** ** The reporter and the command line *)

Lemma linesOf_app xs ys : linesOf (xs ++ ys) = linesOf xs ++ linesOf ys.
Proof.
  induction xs as [| x xs IH]; [reflexivity |].
  simpl. rewrite IH, !append_assoc. reflexivity.
Qed.

Lemma Report_fold_writer errs reporter :
  SimpleReporter.writer
    (fold_left (fun r e => SimpleReporter.Report e r) errs reporter)
  = SimpleReporter.writer reporter ++ linesOf (map errorText errs).
Proof.
  revert reporter. induction errs as [| e errs IH]; intros reporter; simpl.
  - rewrite append_nil_r. reflexivity.
  - rewrite IH. unfold SimpleReporter.Report.
    destruct (isRuntimeErr e); simpl; rewrite !append_assoc; reflexivity.
Qed.

Lemma Print_fold_writer toks reporter :
  SimpleReporter.writer
    (fold_left (fun r tok => Print (tok ++ newline) r) toks reporter)
  = SimpleReporter.writer reporter ++ linesOf toks.
Proof.
  revert reporter. induction toks as [| tok toks IH]; intros reporter; simpl.
  - rewrite append_nil_r. reflexivity.
  - rewrite IH. simpl. rewrite !append_assoc. reflexivity.
Qed.

Lemma Report2_fold errs reporter :
  let reporter' :=
    fold_left (fun r e => SimpleReporter2.Report e r) errs reporter in
  SimpleReporter2.hadErr reporter'
  = SimpleReporter2.hadErr reporter || existsb isStaticErr errs
  /\ SimpleReporter2.hadRuntimeErr reporter'
     = SimpleReporter2.hadRuntimeErr reporter || existsb isRuntimeErr errs
  /\ SimpleReporter2.writer reporter'
     = SimpleReporter2.writer reporter ++ linesOf (map errorText errs).
Proof.
  revert reporter. induction errs as [| e errs IH]; intros reporter; simpl.
  - rewrite !orb_false_r, append_nil_r. repeat split.
  - destruct (IH (SimpleReporter2.Report e reporter)) as (-> & -> & ->).
    unfold SimpleReporter2.Report, isStaticErr.
    destruct (isRuntimeErr e); simpl;
      rewrite ?orb_true_r, ?orb_assoc, !append_assoc; repeat split.
Qed.

(** X8.  A reporter of either version that has been given a sequence of
    errors since it was made answers [HadError] exactly when one of them
    was not a runtime error and [HadRuntimeError] exactly when one of them
    was, and has written one line for each error, in order, after what
    its writer held. *)
Theorem reports_set_flags_and_write_lines :
  forall w errs,
    (let reporter :=
       fold_left (fun r e => SimpleReporter.Report e r) errs
         (SimpleReporter.NewSimpleReporter w) in
     SimpleReporter.HadError reporter = existsb isStaticErr errs
     /\ SimpleReporter.HadRuntimeError reporter = existsb isRuntimeErr errs
     /\ SimpleReporter.writer reporter = w ++ linesOf (map errorText errs))
    /\ (let reporter :=
          fold_left (fun r e => SimpleReporter2.Report e r) errs
            (SimpleReporter2.NewSimpleReporter w) in
        SimpleReporter2.HadError reporter = existsb isStaticErr errs
        /\ SimpleReporter2.HadRuntimeError reporter
           = existsb isRuntimeErr errs
        /\ SimpleReporter2.writer reporter
           = w ++ linesOf (map errorText errs)).
Proof.
  intros w errs. split.
  - destruct (Report_fold_flags errs (SimpleReporter.NewSimpleReporter w))
      as [Hs Hr].
    split; [exact Hs | split; [exact Hr |]].
    apply Report_fold_writer.
  - apply (Report2_fold errs (SimpleReporter2.NewSimpleReporter w)).
Qed.

Lemma run_writer h script reporter :
  SimpleReporter.writer (run h script reporter)
  = SimpleReporter.writer reporter ++ scriptOutput h script.
Proof.
  unfold run, scriptOutput. destruct (scan h script) as [errs toks]. simpl.
  rewrite Print_fold_writer, Report_fold_writer, append_assoc. reflexivity.
Qed.

Lemma promptLoop_writer h lines reporter :
  SimpleReporter.writer (promptLoop h lines reporter)
  = SimpleReporter.writer reporter ++ promptOutput h lines.
Proof.
  revert reporter. induction lines as [| line rest IH]; intros reporter;
    simpl.
  - reflexivity.
  - rewrite IH, run_writer. simpl. rewrite !append_assoc. reflexivity.
Qed.

Lemma no_runtime_error_then_static (errs : list GoError) :
  existsb isRuntimeErr errs = false ->
  existsb isStaticErr errs = match errs with [] => false | _ :: _ => true end.
Proof.
  destruct errs as [| e errs]; [reflexivity |]. simpl.
  intros H. apply orb_false_elim in H as [He _].
  unfold isStaticErr. rewrite He. reflexivity.
Qed.

(** X9.  With one argument, [main] reads that file and nothing else.  If
    the file cannot be read it writes the error and exits with 65;
    otherwise it writes a line for each error of the scanner, then a line
    for each token, and exits with 65 when the scanner reported an error
    and with 0 when it reported none. *)
Theorem main_with_a_script :
  forall h fpath,
    reportsNoRuntimeError h ->
    main h [fpath]
    = match readFile h fpath with
      | inl err => (65%Z, errorText err ++ newline)
      | inr bytes =>
          (match fst (scan h bytes) with [] => 0 | _ :: _ => 65 end%Z,
           scriptOutput h bytes)
      end.
Proof.
  intros h fpath (Hscan & _ & Hfile).
  unfold main, gloxErrorsNewSimpleReporter, runFile. simpl.
  destruct (readFile h fpath) as [err | bytes] eqn:Hread.
  - unfold SimpleReporter.Report, SimpleReporter.HadError.
    rewrite (Hfile _ _ Hread). reflexivity.
  - unfold SimpleReporter.HadError.
    rewrite run_hadErr, run_writer. simpl.
    rewrite (no_runtime_error_then_static _ (Hscan bytes)).
    destruct (fst (scan h bytes)); reflexivity.
Qed.

(** X10.  Without arguments, [main] writes a prompt before every line it
    reads, the output of scanning after it, one more prompt when the
    input ends and, if the line reader ended with an error, a line for
    that error. *)
Theorem main_prompts_once_per_line_and_once_more :
  forall h,
    snd (main h [])
    = promptOutput h (stdin h)
      ++ match stdinErr h with
         | Some err => errorText err ++ newline
         | None => ""
         end.
Proof.
  intros h. unfold main. simpl.
  assert (Hw : SimpleReporter.writer
                 (runPrompt h (SimpleReporter.NewSimpleReporter ""))
               = promptOutput h (stdin h)
                 ++ match stdinErr h with
                    | Some err => errorText err ++ newline
                    | None => ""
                    end).
  { unfold runPrompt. destruct (stdinErr h) as [err |].
    - unfold SimpleReporter.Report.
      destruct (isRuntimeErr err); simpl; rewrite promptLoop_writer;
        reflexivity.
    - rewrite promptLoop_writer, append_nil_r. reflexivity. }
  destruct (SimpleReporter.HadError _); exact Hw.
Qed.

(** ** Operators *)

Section Operators.

Variable stringify : Interpreter.t -> Value -> string.
Variable wallClock : nat -> float.

Lemma eval_unary n Op Inner v s s1 :
  eval stringify wallClock n Inner s = (Ok v, s1) ->
  eval stringify wallClock (S n) (UnaryExpr Op Inner) s
  = match Type_ Op with
    | BANG => (Ok (VBool (negb (truthy v))), s1)
    | MINUS =>
        match v with
        | VNumber x => (Ok (VNumber (- x)%float), s1)
        | _ => (Err (runtimeError Op "Operand must be a number."), s1)
        end
    | _ => (Panic "Unreachable", s1)
    end.
Proof.
  intros H. simpl. unfold VisitUnaryExpr. rewrite (bind_Ok _ _ _ _ _ H).
  destruct (Type_ Op); try reflexivity. destruct v; reflexivity.
Qed.

(** X11.  [!] never fails: it gives the negation of the truthiness of its
    operand, so [!!x] is the truthiness of [x] as a boolean.  [-] negates
    a number and fails with "Operand must be a number." on every other
    value. *)
Theorem unary_operators :
  forall n Op Inner v s s1,
    eval stringify wallClock n Inner s = (Ok v, s1) ->
    (Type_ Op = BANG ->
       eval stringify wallClock (S n) (UnaryExpr Op Inner) s
       = (Ok (VBool (negb (truthy v))), s1)
       /\ eval stringify wallClock (S (S n))
            (UnaryExpr Op (UnaryExpr Op Inner)) s
          = (Ok (VBool (truthy v)), s1))
    /\ (Type_ Op = MINUS ->
          eval stringify wallClock (S n) (UnaryExpr Op Inner) s
          = match v with
            | VNumber x => (Ok (VNumber (- x)%float), s1)
            | _ => (Err (runtimeError Op "Operand must be a number."), s1)
            end).
Proof.
  intros n Op Inner v s s1 H.
  pose proof (eval_unary n Op Inner v s s1 H) as H1.
  split; intros HOp; rewrite HOp in H1; [| exact H1].
  split; [exact H1 |].
  rewrite (eval_unary (S n) Op _ _ _ _ H1), HOp. simpl.
  rewrite Bool.negb_involutive. reflexivity.
Qed.

(** X12.  The operators [> >= < <= - / *] take two numbers: on any other
    pair of values they fail with "Operands must be numbers.", after both
    operands have been evaluated.  On two numbers they never fail,
    whatever the numbers (a division by zero included): the comparisons
    give a boolean, the others a number. *)
Theorem numeric_operators_require_numbers :
  forall n Lhs Op Rhs lhs rhs s s1 s2,
    isNumericOp (Type_ Op) = true ->
    eval stringify wallClock n Lhs s = (Ok lhs, s1) ->
    eval stringify wallClock n Rhs s1 = (Ok rhs, s2) ->
    match lhs, rhs with
    | VNumber _, VNumber _ =>
        exists v,
          eval stringify wallClock (S n) (BinaryExpr Lhs Op Rhs) s
          = (Ok v, s2)
          /\ (if isComparisonOp (Type_ Op) then isBool v else isNumber v)
             = true
    | _, _ =>
        eval stringify wallClock (S n) (BinaryExpr Lhs Op Rhs) s
        = (Err (runtimeError Op "Operands must be numbers."), s2)
    end.
Proof.
  intros n Lhs Op Rhs lhs rhs s s1 s2 HOp Hl Hr.
  rewrite (eval_binary _ _ _ _ _ _ _ _ _ _ _ Hl Hr).
  unfold binaryOp.
  destruct (Type_ Op); try discriminate HOp;
    destruct lhs, rhs; simpl; try reflexivity;
    eexists; split; reflexivity.
Qed.

(** X13.  A Binary expression whose left operand fails does not evaluate
    its right operand; one whose right operand fails fails with that
    error, whatever the operator and the left value are. *)
Theorem binary_operands_fail_first :
  forall n Lhs Op Rhs r s s1,
    eval stringify wallClock n Lhs s = (r, s1) ->
    match r with
    | Ok _ =>
        forall e s2,
          eval stringify wallClock n Rhs s1 = (Err e, s2) ->
          eval stringify wallClock (S n) (BinaryExpr Lhs Op Rhs) s
          = (Err e, s2)
    | Err e =>
        forall Rhs',
          eval stringify wallClock (S n) (BinaryExpr Lhs Op Rhs') s
          = (Err e, s1)
    | _ => True
    end.
Proof.
  intros n Lhs Op Rhs r s s1 Hl. destruct r as [lhs | e | msg |];
    try exact I.
  - intros e s2 Hr. simpl. unfold VisitBinaryExpr.
    rewrite (bind_Ok _ _ _ _ _ Hl). apply (bind_Err _ _ _ _ _ Hr).
  - intros Rhs'. simpl. unfold VisitBinaryExpr.
    apply (bind_Err _ _ _ _ _ Hl).
Qed.

End Operators.

(** ** Statements, properties and variables *)

Section Statements.

Variable stringify : Interpreter.t -> Value -> string.
Variable wallClock : nat -> float.

Lemma while_exit ev ex Cond Body s' :
  forall rounds s,
    VisitWhileStmt ev ex rounds Cond Body s = (Ok tt, s') ->
    exists s0 v, ev Cond s0 = (Ok v, s') /\ truthy v = false.
Proof.
  induction rounds as [| rounds IH]; intros s H; simpl in H.
  - discriminate H.
  - apply bind_inv_Ok in H as (v & s1 & Hc & H).
    destruct (truthy v) eqn:Hv; simpl in H.
    + apply bind_inv_Ok in H as (u & s2 & _ & H). apply (IH _ H).
    + injection H as <-. exists s, v. split; assumption.
Qed.

(** X15.  When a while statement ends normally, the last thing it did was
    to evaluate its condition to a falsy value: the state it leaves is the
    state that evaluation left. *)
Theorem while_ends_on_a_falsy_condition :
  forall n Cond Body s s',
    exec stringify wallClock (S n) (WhileStmt Cond Body) s = (Ok tt, s') ->
    exists s0 v,
      eval stringify wallClock n Cond s0 = (Ok v, s') /\ truthy v = false.
Proof.
  intros n Cond Body s s' H. simpl in H. apply (while_exit _ _ _ _ _ _ _ H).
Qed.

(** X16.  A return statement never completes normally, and the
    statements that follow it in a list are not executed: the list ends
    as the return statement does. *)
Theorem return_ends_the_statement_list :
  forall n Keyword Val rest s,
    execStmts (exec stringify wallClock n) (ReturnStmt Keyword Val :: rest) s
    = exec stringify wallClock n (ReturnStmt Keyword Val) s
    /\ forall s', exec stringify wallClock n (ReturnStmt Keyword Val) s
                  <> (Ok tt, s').
Proof.
  intros n Keyword Val rest s.
  assert (Hnot : forall s', exec stringify wallClock n (ReturnStmt Keyword Val) s
                            <> (Ok tt, s')).
  { intros s' H. destruct n as [| n]; [discriminate H |].
    simpl in H. unfold VisitReturnStmt in H.
    apply bind_inv_Ok in H as (v & s1 & _ & H). discriminate H. }
  split; [| exact Hnot].
  simpl. unfold bind.
  destruct (exec stringify wallClock n (ReturnStmt Keyword Val) s)
    as [[[] | e | msg |] s1] eqn:H; try reflexivity.
  destruct (Hnot s1). reflexivity.
Qed.

(** X17.  A class statement whose superclass expression evaluates to
    something that is not a class fails with "Superclass must be a
    class." at the superclass's name, in the state that evaluation left:
    no environment has been pushed and the class is not defined. *)
Theorem superclass_must_be_a_class :
  forall n Name id superName Methods v s s1,
    eval stringify wallClock n (VarExpr id superName) s = (Ok v, s1) ->
    (forall p, v <> VClass p) ->
    exec stringify wallClock (S n)
      (ClassStmt Name (Some (id, superName)) Methods) s
    = (Err (runtimeError superName "Superclass must be a class."), s1).
Proof.
  intros n Name id superName Methods v s s1 Hv Hnc.
  simpl. unfold VisitClassStmt. unfold bind at 1.
  rewrite (bind_Ok _ _ _ _ _ Hv).
  destruct v; try reflexivity. destruct (Hnc p). reflexivity.
Qed.

(** X18.  A Get expression whose object is not an instance fails with
    "Only instances have properties." in the state the object left. *)
Theorem get_requires_an_instance :
  forall n Obj Name obj s s1,
    eval stringify wallClock n Obj s = (Ok obj, s1) ->
    (forall p, obj <> VInstance p) ->
    eval stringify wallClock (S n) (GetExpr Obj Name) s
    = (Err (runtimeError Name "Only instances have properties."), s1).
Proof.
  intros n Obj Name obj s s1 Ho Hni. simpl. unfold VisitGetExpr.
  rewrite (bind_Ok _ _ _ _ _ Ho).
  destruct obj; try reflexivity. destruct (Hni p). reflexivity.
Qed.

(** X19.  A field that has been set is the field that is read: after
    [obj.name = val] has given the instance [p] the value [v], every Get
    expression for that name on an object that evaluates to [p] gives [v]
    and changes nothing. *)
Theorem field_set_is_field_read :
  forall n Obj Name Val p v s s1 s2,
    eval stringify wallClock n Obj s = (Ok (VInstance p), s1) ->
    eval stringify wallClock n Val s1 = (Ok v, s2) ->
    is_Some (Interpreter.instances s2 !! p) ->
    exists s3,
      eval stringify wallClock (S n) (SetExpr Obj Name Val) s = (Ok v, s3)
      /\ forall m Obj' Name',
           Lexeme Name' = Lexeme Name ->
           eval stringify wallClock m Obj' s3 = (Ok (VInstance p), s3) ->
           eval stringify wallClock (S m) (GetExpr Obj' Name') s3
           = (Ok v, s3).
Proof.
  intros n Obj Name Val p v s s1 s2 Ho Hv [i Hi].
  eexists. split.
  - simpl. unfold VisitSetExpr.
    rewrite (bind_Ok _ _ _ _ _ Ho), (bind_Ok _ _ _ _ _ Hv).
    unfold bind, instanceSet. rewrite Hi. reflexivity.
  - intros m Obj' Name' Hname Ho'. simpl. unfold VisitGetExpr.
    rewrite (bind_Ok _ _ _ _ _ Ho').
    unfold instanceGet, bind at 1, deref. simpl.
    rewrite list_lookup_insert_eq by (eapply lookup_lt_Some; exact Hi).
    simpl. rewrite Hname, lookup_insert_eq. reflexivity.
Qed.

(** X20.  A variable that the resolver has given a distance is read and
    assigned without a runtime error: reading it gives what the frame at
    that distance holds under the name, nil if it holds nothing, and
    "Undefined variable" is never raised. *)
Theorem resolved_variable_never_fails :
  forall n id Name d s,
    Interpreter.locals s !! id = Some d ->
    (forall e s', eval stringify wallClock (S n) (VarExpr id Name) s
                  <> (Err e, s'))
    /\ (forall p frame,
          ancestor (Interpreter.envs s) (Interpreter.environment s)
            (Z.to_nat d) = Some p ->
          Interpreter.envs s !! p = Some frame ->
          eval stringify wallClock (S n) (VarExpr id Name) s
          = (Ok (default VNil (values frame !! Lexeme Name)), s))
    /\ (forall Val e s',
          eval stringify wallClock (S (S n)) (AssignExpr id Name Val) s
          = (Err e, s') ->
          exists s1, eval stringify wallClock (S n) Val s = (Err e, s1)).
Proof.
  intros n id Name d s Hd. split; [| split].
  - intros e s'. simpl. unfold VisitVarExpr, lookUpVar.
    unfold bind at 1, gets. rewrite Hd.
    unfold bind at 1, gets, getAt, deref.
    destruct (ancestor _ _ _) as [p |]; [| discriminate].
    destruct (Interpreter.envs s !! p); discriminate.
  - intros p frame Hp Hf. simpl. unfold VisitVarExpr, lookUpVar.
    unfold bind at 1, gets. rewrite Hd.
    unfold bind at 1, gets, getAt, deref. rewrite Hp, Hf. reflexivity.
  - intros Val e s' H.
    change (VisitAssignExpr (eval stringify wallClock (S n)) id Name Val s
            = (Err e, s')) in H.
    unfold VisitAssignExpr in H. unfold bind at 1 in H.
    destruct (eval stringify wallClock (S n) Val s)
      as [[v | e1 | msg |] s1] eqn:Hv; try discriminate H.
    + exfalso.
      destruct (eval_sameFrame _ _ _ _ _ _ _ Hv) as (_ & _ & Hl & _).
      unfold bind at 1, gets in H. rewrite Hl, Hd in H.
      unfold bind at 1, gets in H. unfold bind at 1 in H.
      unfold assignAt in H. unfold bind at 1, deref in H.
      destruct (ancestor _ _ _) as [p |]; [| discriminate H].
      unfold writeVar in H.
      destruct (Interpreter.envs s1 !! p); discriminate H.
    + injection H as <- <-. exists s1. reflexivity.
Qed.

(** X21.  A print statement writes [stringify] of its value and a
    newline, in a script as in the REPL, and changes nothing else; when
    the expression of a print or of an expression statement fails, the
    statement fails the same way and writes nothing. *)
Theorem print_writes_one_line_or_fails :
  forall n E r s s1,
    eval stringify wallClock n E s = (r, s1) ->
    match r with
    | Ok v =>
        exec stringify wallClock (S n) (PrintStmt E) s
        = (Ok tt,
           Interpreter.set_output
             (Interpreter.output s1 ++ stringify s1 v ++ newline) s1)
    | Err e =>
        exec stringify wallClock (S n) (PrintStmt E) s = (Err e, s1)
        /\ exec stringify wallClock (S n) (ExprStmt E) s = (Err e, s1)
    | _ => True
    end.
Proof.
  intros n E r s s1 H. destruct r as [v | e | msg |]; try exact I.
  - simpl. unfold VisitPrintStmt. rewrite (bind_Ok _ _ _ _ _ H). reflexivity.
  - split; simpl; [unfold VisitPrintStmt | unfold VisitExprStmt];
      apply (bind_Err _ _ _ _ _ H).
Qed.

(** X22.  A variable declared at the top level is read back: after
    [var name = init;] has run with the global environment current, an
    unresolved variable expression for that name gives the value of the
    initializer, or nil if there was none. *)
Theorem global_declared_is_global_read :
  forall n Name Init v s s1 frame,
    match Init with
    | Some init => eval stringify wallClock n init s = (Ok v, s1)
    | None => v = VNil /\ s1 = s
    end ->
    Interpreter.environment s = Interpreter.globals s ->
    Interpreter.envs s1 !! Interpreter.globals s = Some frame ->
    exists s2,
      exec stringify wallClock (S n) (VarStmt Name Init) s = (Ok tt, s2)
      /\ forall m id Name',
           Interpreter.locals s !! id = None ->
           Lexeme Name' = Lexeme Name ->
           eval stringify wallClock (S m) (VarExpr id Name') s2 = (Ok v, s2).
Proof.
  intros n Name Init v s s1 frame Hinit Hcur Hframe.
  assert (Hsame : sameFrame s s1).
  { destruct Init as [init |].
    - apply (eval_sameFrame _ _ _ _ _ _ _ Hinit).
    - destruct Hinit as [_ ->]. apply sameFrame_refl. }
  destruct Hsame as (Hg & He & Hl & _).
  assert (Hrun : (let* initVal :=
                    match Init with
                    | Some e => eval stringify wallClock n e
                    | None => ret VNil
                    end in
                  ret initVal) s = (Ok v, s1)).
  { destruct Init as [init |].
    - rewrite (bind_Ok _ _ _ _ _ Hinit). reflexivity.
    - destruct Hinit as [-> ->]. reflexivity. }
  eexists. split.
  - simpl. unfold VisitVarStmt.
    apply bind_inv_Ok in Hrun as (v0 & s0 & Hrun & Hret).
    injection Hret as -> ->.
    rewrite (bind_Ok _ _ _ _ _ Hrun).
    unfold bind, gets, define, writeVar.
    rewrite He, Hcur, Hframe. reflexivity.
  - intros m id Name' Hid Hname. simpl. unfold VisitVarExpr, lookUpVar.
    unfold bind at 1, gets. simpl. rewrite Hl, Hid.
    unfold bind at 1, gets, get. simpl. rewrite Hg.
    f_equal.
    assert (Hlen : Interpreter.globals s < length (Interpreter.envs s1))
      by (eapply lookup_lt_Some; exact Hframe).
    rewrite length_insert.
    destruct (length (Interpreter.envs s1)) as [| k] eqn:Hk; [lia |].
    simpl. rewrite list_lookup_insert_eq by lia.
    simpl. rewrite Hname, lookup_insert_eq. reflexivity.
Qed.

End Statements.

(** X23.  A new interpreter starts in its global environment, with the
    mode it was made with and an empty resolution table, and whatever
    program [Interpret] then runs, and however it ends, the interpreter
    is back in its global environment, in the same mode. *)
Theorem new_interpreter_stays_at_global_scope :
  forall R (reporterOps : Reporter R) stringify wallClock errorString n
         isREPL statements (reporter : R),
    let s := NewInterpreter isREPL in
    let s' :=
      snd (fst (Interpret stringify wallClock errorString n statements
                  s reporter)) in
    Interpreter.environment s = Interpreter.globals s
    /\ Interpreter.environment s' = Interpreter.globals s'
    /\ Interpreter.isREPL s' = isREPL
    /\ Interpreter.envs s !! Interpreter.globals s
       = Some (mkEnvironment (<["clock" := VClock]> ∅) None).
Proof.
  intros R reporterOps stringify wallClock errorString n isREPL statements
    reporter s s'.
  destruct (Interpret_sameFrame stringify wallClock errorString n statements
              s reporter)
    as (Hg & He & _ & Hr).
  fold s' in Hg, He, Hr.
  split; [reflexivity | split; [| split; [| reflexivity]]].
  - rewrite He, Hg. reflexivity.
  - rewrite Hr. reflexivity.
Qed.

(** * The further properties at sample inputs *)

(** [print 1; nil(); print 2;] prints 1, reports the failing call and
    does not print 2. *)
Lemma Interpret_stops_at_failing_call :
  let s1 := Interpreter.set_output ("1" ++ newline) Sample.script in
  let failure :=
    runtimeError Sample.paren "Can only call functions and classes." in
  let reporter := SimpleReporter2.NewSimpleReporter "" in
  execStmts (sample_exec 5) [PrintStmt (Sample.number 1)] Sample.script
  = (Ok tt, s1)
  /\ sample_exec 5 (ExprStmt (CallExpr (LiteralExpr VNil) Sample.paren [])) s1
     = (Err failure, s1)
  /\ Interpret stringifySample clockSample Sample.errorString 5
       ([PrintStmt (Sample.number 1)]
        ++ ExprStmt (CallExpr (LiteralExpr VNil) Sample.paren [])
           :: [PrintStmt (Sample.number 2)])
       Sample.script reporter
     = (Ok tt, s1,
        Report (asGoError Sample.errorString failure) reporter).
Proof.
  intros s1 failure reporter.
  assert (H1 : execStmts (sample_exec 5) [PrintStmt (Sample.number 1)]
                 Sample.script = (Ok tt, s1))
    by (vm_compute; reflexivity).
  assert (H2 : sample_exec 5
                 (ExprStmt (CallExpr (LiteralExpr VNil) Sample.paren [])) s1
               = (Err failure, s1))
    by (vm_compute; reflexivity).
  split; [exact H1 | split; [exact H2 |]].
  exact (Interpret_stops_at_the_first_error _ _ stringifySample clockSample
           Sample.errorString 5 _ _ [PrintStmt (Sample.number 2)] failure
           Sample.script s1 s1 reporter H1 H2).
Defined.

(** [class Point {}  var p = Point();] runs to its end and reports
    nothing. *)
Lemma Interpret_reports_nothing_for_point :
  let reporter := SimpleReporter.NewSimpleReporter "" in
  execStmts (sample_exec 10) Sample.pointProgram Sample.script
  = (Ok tt, Sample.withPoint)
  /\ Interpret stringifySample clockSample Sample.errorString 10
       Sample.pointProgram Sample.script reporter
     = (Ok tt, Sample.withPoint, reporter).
Proof.
  intros reporter.
  assert (H1 : execStmts (sample_exec 10) Sample.pointProgram Sample.script
               = (Ok tt, Sample.withPoint))
    by (vm_compute; reflexivity).
  split; [exact H1 |].
  exact (Interpret_reports_nothing_on_success _ _ stringifySample clockSample
           Sample.errorString 10 Sample.pointProgram Sample.script
           Sample.withPoint reporter H1).
Defined.

(** After [print 1; nil(); print 2;] both reporters answer that there was
    a runtime error and no other error. *)
Lemma Interpret_raises_the_runtime_flag_at_failing_call :
  let run1 :=
    Interpret stringifySample clockSample Sample.errorString 5
      ([PrintStmt (Sample.number 1)]
       ++ ExprStmt (CallExpr (LiteralExpr VNil) Sample.paren [])
          :: [PrintStmt (Sample.number 2)])
      Sample.script (SimpleReporter.NewSimpleReporter "") in
  let run2 :=
    Interpret stringifySample clockSample Sample.errorString 5
      ([PrintStmt (Sample.number 1)]
       ++ ExprStmt (CallExpr (LiteralExpr VNil) Sample.paren [])
          :: [PrintStmt (Sample.number 2)])
      Sample.script (SimpleReporter2.NewSimpleReporter "") in
  (HadRuntimeError (snd run1) = true /\ HadError (snd run1) = false)
  /\ (HadRuntimeError (snd run2) = true /\ HadError (snd run2) = false).
Proof.
  intros run1 run2.
  pose (s1 := Interpreter.set_output ("1" ++ newline) Sample.script).
  pose (failure :=
          runtimeError Sample.paren "Can only call functions and classes.").
  assert (H1 : execStmts (sample_exec 5) [PrintStmt (Sample.number 1)]
                 Sample.script = (Ok tt, s1))
    by (vm_compute; reflexivity).
  assert (H2 : sample_exec 5
                 (ExprStmt (CallExpr (LiteralExpr VNil) Sample.paren [])) s1
               = (Err failure, s1))
    by (vm_compute; reflexivity).
  destruct (Interpret_raises_the_flag_of_the_error stringifySample
              clockSample Sample.errorString 5 _ _
              [PrintStmt (Sample.number 2)] failure Sample.script s1 s1 H1 H2)
    as [Hr1 Hr2].
  split.
  - exact (Hr1 (SimpleReporter.NewSimpleReporter "")).
  - exact (Hr2 (SimpleReporter2.NewSimpleReporter "")).
Defined.

(** [!nil] is true, [!!nil] is false, [-nil] fails and [-1] is -1. *)
Lemma unary_operators_at_nil_and_one :
  sample_eval 1 (LiteralExpr VNil) Sample.script = (Ok VNil, Sample.script)
  /\ sample_eval 2 (UnaryExpr Sample.bang (LiteralExpr VNil)) Sample.script
     = (Ok (VBool true), Sample.script)
  /\ sample_eval 3
       (UnaryExpr Sample.bang (UnaryExpr Sample.bang (LiteralExpr VNil)))
       Sample.script
     = (Ok (VBool false), Sample.script)
  /\ sample_eval 2 (UnaryExpr Sample.minus (LiteralExpr VNil)) Sample.script
     = (Err (runtimeError Sample.minus "Operand must be a number."),
        Sample.script)
  /\ sample_eval 2 (UnaryExpr Sample.minus (Sample.number 1)) Sample.script
     = (Ok (VNumber (-1)), Sample.script).
Proof.
  split; [reflexivity |].
  destruct (unary_operators stringifySample clockSample 1 Sample.bang
              (LiteralExpr VNil) VNil Sample.script Sample.script eq_refl)
    as [Hbang _].
  destruct (Hbang eq_refl) as [Hnot Hnotnot].
  destruct (unary_operators stringifySample clockSample 1 Sample.minus
              (LiteralExpr VNil) VNil Sample.script Sample.script eq_refl)
    as [_ Hnil].
  destruct (unary_operators stringifySample clockSample 1 Sample.minus
              (Sample.number 1) (VNumber 1) Sample.script Sample.script
              eq_refl)
    as [_ Hone].
  split; [exact Hnot | split; [exact Hnotnot | split]].
  - exact (Hnil eq_refl).
  - exact (Hone eq_refl).
Defined.

(** ["a" - 1] fails with "Operands must be numbers."; [1 / 0] is a
    number. *)
Lemma numeric_operators_at_text_and_zero :
  sample_eval 2
    (BinaryExpr (Sample.text "a") Sample.minus (Sample.number 1))
    Sample.script
  = (Err (runtimeError Sample.minus "Operands must be numbers."),
     Sample.script)
  /\ exists v,
       sample_eval 2
         (BinaryExpr (Sample.number 1) Sample.slash (Sample.number 0))
         Sample.script
       = (Ok v, Sample.script)
       /\ isNumber v = true.
Proof.
  split.
  - exact (numeric_operators_require_numbers stringifySample clockSample 1
             (Sample.text "a") Sample.minus (Sample.number 1)
             (VString "a") (VNumber 1)
             Sample.script Sample.script Sample.script
             eq_refl eq_refl eq_refl).
  - exact (numeric_operators_require_numbers stringifySample clockSample 1
             (Sample.number 1) Sample.slash (Sample.number 0)
             (VNumber 1) (VNumber 0)
             Sample.script Sample.script Sample.script
             eq_refl eq_refl eq_refl).
Defined.

(** [nil(1) + 1] and [1 + nil(1)] fail with the error of the call, not
    with an error about the operands of [+]. *)
Lemma binary_operands_fail_first_at_failing_call :
  let failure :=
    runtimeError Sample.paren "Can only call functions and classes." in
  sample_eval 2 Sample.nilOfOne Sample.script = (Err failure, Sample.script)
  /\ sample_eval 3
       (BinaryExpr Sample.nilOfOne Sample.plus (Sample.number 1))
       Sample.script
     = (Err failure, Sample.script)
  /\ sample_eval 3
       (BinaryExpr (Sample.number 1) Sample.plus Sample.nilOfOne)
       Sample.script
     = (Err failure, Sample.script).
Proof.
  intros failure.
  assert (Hfail : sample_eval 2 Sample.nilOfOne Sample.script
                  = (Err failure, Sample.script))
    by (vm_compute; reflexivity).
  split; [exact Hfail | split].
  - exact (binary_operands_fail_first stringifySample clockSample 2
             Sample.nilOfOne Sample.plus (Sample.number 1)
             (Err failure) Sample.script Sample.script Hfail
             (Sample.number 1)).
  - exact (binary_operands_fail_first stringifySample clockSample 2
             (Sample.number 1) Sample.plus Sample.nilOfOne
             (Ok (VNumber 1)) Sample.script Sample.script eq_refl
             failure Sample.script Hfail).
Defined.

(** [clock(1, nil(1), 2)] fails with the error of its second argument,
    not with the arity error of [clock]. *)
Lemma call_fails_at_second_argument :
  let failure :=
    runtimeError Sample.paren "Can only call functions and classes." in
  sample_eval 2 (VarExpr 1 (Sample.ident "clock")) Sample.script
  = (Ok VClock, Sample.script)
  /\ argsInOrder (sample_eval 2) [Sample.number 1] Sample.script
       [VNumber 1] Sample.script
  /\ sample_eval 2 Sample.nilOfOne Sample.script = (Err failure, Sample.script)
  /\ sample_eval 3 Sample.clockOfThree Sample.script
     = (Err failure, Sample.script).
Proof.
  intros failure.
  assert (Hc : sample_eval 2 (VarExpr 1 (Sample.ident "clock")) Sample.script
               = (Ok VClock, Sample.script))
    by (vm_compute; reflexivity).
  assert (Hb : argsInOrder (sample_eval 2) [Sample.number 1] Sample.script
                 [VNumber 1] Sample.script)
    by (econstructor; [reflexivity | constructor]).
  assert (Ha : sample_eval 2 Sample.nilOfOne Sample.script
               = (Err failure, Sample.script))
    by (vm_compute; reflexivity).
  split; [exact Hc | split; [exact Hb | split; [exact Ha |]]].
  exact (call_fails_with_its_first_failing_argument stringifySample
           clockSample 2 (VarExpr 1 (Sample.ident "clock")) Sample.paren
           [Sample.number 1] Sample.nilOfOne [Sample.number 2]
           VClock [VNumber 1] failure
           Sample.script Sample.script Sample.script Sample.script
           Hc Hb Ha).
Defined.

(** [while (i) i = false;] with [i] true ends, and ends on a falsy
    condition. *)
Lemma while_ends_at_until_false :
  let s' := snd (sample_exec 6 Sample.untilFalse Sample.withI) in
  sample_exec 6 Sample.untilFalse Sample.withI = (Ok tt, s')
  /\ exists s0 v,
       sample_eval 5 (VarExpr 4 (Sample.ident "i")) s0 = (Ok v, s')
       /\ truthy v = false.
Proof.
  intros s'.
  assert (H : sample_exec 6 Sample.untilFalse Sample.withI = (Ok tt, s'))
    by (vm_compute; reflexivity).
  split; [exact H |].
  exact (while_ends_on_a_falsy_condition stringifySample clockSample 5
           (VarExpr 4 (Sample.ident "i"))
           (ExprStmt (AssignExpr 5 (Sample.ident "i")
                        (LiteralExpr (VBool false))))
           Sample.withI s' H).
Defined.

(** [class B < clock {}] fails: [clock] is not a class. *)
Lemma superclass_must_be_a_class_at_clock :
  sample_eval 1 (VarExpr 1 (Sample.ident "clock")) Sample.script
  = (Ok VClock, Sample.script)
  /\ sample_exec 2 Sample.classFromClock Sample.script
     = (Err (runtimeError (Sample.ident "clock")
               "Superclass must be a class."),
        Sample.script).
Proof.
  split; [reflexivity |].
  apply (superclass_must_be_a_class stringifySample clockSample 1
           (Sample.ident "B") 1 (Sample.ident "clock") [] VClock
           Sample.script Sample.script eq_refl).
  discriminate.
Defined.

(** [1.x] fails. *)
Lemma get_requires_an_instance_at_number :
  sample_eval 1 (Sample.number 1) Sample.script
  = (Ok (VNumber 1), Sample.script)
  /\ sample_eval 2 (GetExpr (Sample.number 1) (Sample.ident "x"))
       Sample.script
     = (Err (runtimeError (Sample.ident "x")
               "Only instances have properties."),
        Sample.script).
Proof.
  split; [reflexivity |].
  apply (get_requires_an_instance stringifySample clockSample 1
           (Sample.number 1) (Sample.ident "x") (VNumber 1)
           Sample.script Sample.script eq_refl).
  discriminate.
Defined.

(** After [p.x = 3], [p.x] is 3. *)
Lemma field_set_is_field_read_at_point :
  let s3 := snd (sample_eval 2 Sample.setPointX Sample.withPoint) in
  sample_eval 1 (VarExpr 2 (Sample.ident "p")) Sample.withPoint
  = (Ok (VInstance 0), Sample.withPoint)
  /\ sample_eval 2 Sample.setPointX Sample.withPoint = (Ok (VNumber 3), s3)
  /\ sample_eval 2 (GetExpr (VarExpr 2 (Sample.ident "p")) (Sample.ident "x"))
       s3
     = (Ok (VNumber 3), s3).
Proof.
  intros s3.
  assert (Hobj : sample_eval 1 (VarExpr 2 (Sample.ident "p")) Sample.withPoint
                 = (Ok (VInstance 0), Sample.withPoint))
    by (vm_compute; reflexivity).
  assert (Hlive : is_Some (Interpreter.instances Sample.withPoint !! 0))
    by (exists (mkInstance 0 ∅); vm_compute; reflexivity).
  destruct (field_set_is_field_read stringifySample clockSample 1
              (VarExpr 2 (Sample.ident "p")) (Sample.ident "x")
              (Sample.number 3) 0 (VNumber 3)
              Sample.withPoint Sample.withPoint Sample.withPoint
              Hobj eq_refl Hlive)
    as (s3' & Hset & Hget).
  assert (Hs3 : s3' = s3)
    by (unfold s3, Sample.setPointX; rewrite Hset; reflexivity).
  subst s3'.
  split; [exact Hobj | split; [exact Hset |]].
  apply (Hget 1 (VarExpr 2 (Sample.ident "p")) (Sample.ident "x") eq_refl).
  vm_compute. reflexivity.
Defined.

(** A resolved variable that its frame does not hold reads as nil. *)
Lemma resolved_variable_reads_nil_when_unbound :
  Interpreter.locals Sample.resolved !! 9 = Some 0%Z
  /\ sample_eval 1 (VarExpr 9 (Sample.ident "x")) Sample.resolved
     = (Ok VNil, Sample.resolved).
Proof.
  assert (Hd : Interpreter.locals Sample.resolved !! 9 = Some 0%Z)
    by (vm_compute; reflexivity).
  split; [exact Hd |].
  destruct (resolved_variable_never_fails stringifySample clockSample 0
              9 (Sample.ident "x") 0%Z Sample.resolved Hd)
    as (_ & Hread & _).
  exact (Hread 0 (mkEnvironment (<["clock" := VClock]> ∅) None)
           eq_refl eq_refl).
Defined.

(** In a script [print 1;] writes [1]; [print nil(1);] fails and writes
    nothing. *)
Lemma print_at_one_and_failing_call :
  Interpreter.output
    (snd (sample_exec 2 (PrintStmt (Sample.number 1)) Sample.script))
  = "1" ++ newline
  /\ sample_exec 3 (PrintStmt Sample.nilOfOne) Sample.script
     = (Err (runtimeError Sample.paren
               "Can only call functions and classes."),
        Sample.script).
Proof.
  split.
  - rewrite (print_writes_one_line_or_fails stringifySample clockSample 1
               (Sample.number 1) (Ok (VNumber 1))
               Sample.script Sample.script eq_refl).
    reflexivity.
  - assert (Hfail : sample_eval 2 Sample.nilOfOne Sample.script
                    = (Err (runtimeError Sample.paren
                              "Can only call functions and classes."),
                       Sample.script))
      by (vm_compute; reflexivity).
    exact (proj1 (print_writes_one_line_or_fails stringifySample clockSample
                    2 Sample.nilOfOne _ Sample.script Sample.script Hfail)).
Defined.

(** After [var a = 7;] at the top level, [a] is 7. *)
Lemma global_declared_is_global_read_at_a :
  let s2 :=
    snd (sample_exec 2 (VarStmt (Sample.ident "a") (Some (Sample.number 7)))
           Sample.script) in
  sample_eval 1 (Sample.number 7) Sample.script
  = (Ok (VNumber 7), Sample.script)
  /\ sample_eval 1 (VarExpr 3 (Sample.ident "a")) s2 = (Ok (VNumber 7), s2).
Proof.
  intros s2. split; [reflexivity |].
  destruct (global_declared_is_global_read stringifySample clockSample 1
              (Sample.ident "a") (Some (Sample.number 7)) (VNumber 7)
              Sample.script Sample.script
              (mkEnvironment (<["clock" := VClock]> ∅) None)
              eq_refl eq_refl eq_refl)
    as (s2' & Hrun & Hread).
  assert (Hs2 : s2' = s2) by (unfold s2; rewrite Hrun; reflexivity).
  subst s2'.
  apply (Hread 0 3 (Sample.ident "a")); [vm_compute |]; reflexivity.
Defined.

(** The sample hosts report no runtime error. *)
Lemma echo_reportsNoRuntimeError : reportsNoRuntimeError Sample.echo.
Proof.
  split; [| split].
  - intros script. simpl. destruct (String.eqb script ""); reflexivity.
  - intros err H. discriminate H.
  - intros fpath err H. injection H as <-. reflexivity.
Defined.

Lemma quiet_reportsNoRuntimeError : reportsNoRuntimeError Sample.quiet.
Proof.
  split; [| split].
  - intros script. reflexivity.
  - intros err H. discriminate H.
  - intros fpath err H. discriminate H.
Defined.


(** C8, as the specification has it, fails on a property assignment: in
    the REPL, with [p] an instance, the statement [p.x = 3;] evaluates to
    3 and writes [3] and a newline. *)
Lemma property_assignment_is_echoed_in_the_repl :
  let s1 := snd (sample_eval 2 Sample.setPointX Sample.replWithPoint) in
  Interpreter.isREPL Sample.replWithPoint = true
  /\ Interpreter.output Sample.replWithPoint = ""
  /\ sample_eval 2 Sample.setPointX Sample.replWithPoint
     = (Ok (VNumber 3), s1)
  /\ Interpreter.output
       (snd (sample_exec 3 (ExprStmt Sample.setPointX) Sample.replWithPoint))
     = "3" ++ newline.
Proof.
  intros s1. split; [| split; [| split]]; vm_compute; reflexivity.
Qed.

(** [a = 7] has the value 7 and leaves 7 under [a] in the global frame,
    where [a] then reads 7; [p.x = 3] has the value 3 and leaves 3 in the
    field [x] of the instance [p]. *)
Lemma assignment_stores_its_value_at_variable_and_field :
  let sa := snd (sample_eval 2 Sample.assignA Sample.withA) in
  let sp := snd (sample_eval 2 Sample.setPointX Sample.withPoint) in
  sample_eval 2 Sample.assignA Sample.withA = (Ok (VNumber 7), sa)
  /\ (exists frame',
        Interpreter.envs sa !! 0 = Some frame'
        /\ values frame' !! "a" = Some (VNumber 7))
  /\ sample_eval 1 (VarExpr 4 (Sample.ident "a")) sa = (Ok (VNumber 7), sa)
  /\ sample_eval 2 Sample.setPointX Sample.withPoint = (Ok (VNumber 3), sp)
  /\ (exists i',
        Interpreter.instances sp !! 0 = Some i'
        /\ fields i' !! "x" = Some (VNumber 3)).
Proof.
  intros sa sp.
  assert (Ha : sample_eval 2 Sample.assignA Sample.withA = (Ok (VNumber 7), sa))
    by (vm_compute; reflexivity).
  assert (Hp : sample_eval 2 Sample.setPointX Sample.withPoint
               = (Ok (VNumber 3), sp))
    by (vm_compute; reflexivity).
  split; [exact Ha | split; [| split; [| split; [exact Hp |]]]].
  - destruct (assignment_yields_the_value_it_stored stringifySample
                clockSample 1 Sample.assignA (VNumber 7) Sample.withA sa Ha)
      as (s1 & p & frame & Hval & Hchain & _ & _ & frame' & Hframe' & Hstored).
    vm_compute in Hval. injection Hval as <-.
    vm_compute in Hchain. injection Hchain as <-.
    exists frame'. split; [exact Hframe' | exact Hstored].
  - vm_compute. reflexivity.
  - destruct (assignment_yields_the_value_it_stored stringifySample
                clockSample 1 Sample.setPointX (VNumber 3) Sample.withPoint
                sp Hp)
      as (p & s1 & s2 & i & Hobj & _ & _ & _ & i' & Hi' & Hstored).
    vm_compute in Hobj. injection Hobj as <- <-.
    exists i'. split; [exact Hi' | exact Hstored].
Defined.

(** A file that cannot be read gives its error and exit code 65; a file
    that scans without error gives its tokens and exit code 0. *)
Lemma main_with_a_script_at_sample_hosts :
  main Sample.echo ["missing.lox"] = (65%Z, "no such file" ++ newline)
  /\ main Sample.quiet ["one.lox"] = (0%Z, "print 1;" ++ newline).
Proof.
  split.
  - exact (main_with_a_script Sample.echo "missing.lox"
             echo_reportsNoRuntimeError).
  - exact (main_with_a_script Sample.quiet "one.lox"
             quiet_reportsNoRuntimeError).
Defined.

